(** * FIR Auto-Fill System: the deterministic core of [app.py] and [utils.py]

    A shallow embedding of the nested-path accessors, the mandatory-field
    check, the correction loop of the missing-fields form, the null pruning,
    the date display and the regular-expression based text extractors,
    together with the properties the specification states about them.

    Conventions of the embedding.
    - A Python [str] is a [string]; one character is one 8-bit code.  On
      ASCII text this is exactly Python's indexing; [\d], [\s], [lower()] and
      [IGNORECASE] are modelled on their ASCII range.
    - A JSON tree as produced by [json.loads] is a [value]; a [dict] is an
      association list in insertion order (first binding of a key wins).
    - Code that can raise returns a [result]; in-place mutation of the tree
      is explicit state passing: the mutated tree is returned. *)

From Stdlib Require Import List String Ascii ZArith Bool Arith Lia Sorted.
From Stdlib Require Import Floats.SpecFloat.
From Stdlib Require Import DecimalString.
Import ListNotations.
Open Scope string_scope.

(** ** Exceptions and results *)

Inductive exn : Type :=
| TypeError
| KeyError
| ValueError.

Inductive result (A : Type) : Type :=
| Ok (a : A)
| Raise (e : exn).

Arguments Ok {A} a.
Arguments Raise {A} e.

Definition bind {A B : Type} (r : result A) (k : A -> result B) : result B :=
  match r with
  | Ok a => k a
  | Raise e => Raise e
  end.

Notation "x <- r ;; k" := (bind r (fun x => k))
  (at level 61, r at next level, right associativity).

(** ** Strings *)

Definition is_upper (c : ascii) : bool :=
  let n := nat_of_ascii c in ((65 <=? n) && (n <=? 90))%nat.

Definition is_lower (c : ascii) : bool :=
  let n := nat_of_ascii c in ((97 <=? n) && (n <=? 122))%nat.

Definition is_digit (c : ascii) : bool :=
  let n := nat_of_ascii c in ((48 <=? n) && (n <=? 57))%nat.

(** [str.isspace] on one character (also the class [\s]). *)
Definition is_space (c : ascii) : bool :=
  let n := nat_of_ascii c in
  (((9 <=? n) && (n <=? 13)) || ((28 <=? n) && (n <=? 32)))%nat.

Definition lower_char (c : ascii) : ascii :=
  if is_upper c then ascii_of_nat (nat_of_ascii c + 32) else c.

Definition upper_char (c : ascii) : ascii :=
  if is_lower c then ascii_of_nat (nat_of_ascii c - 32) else c.

(** [s.lower()] *)
Fixpoint lower (s : string) : string :=
  match s with
  | EmptyString => EmptyString
  | String c s' => String (lower_char c) (lower s')
  end.

(** [s.startswith(p)] *)
Fixpoint starts_with (p s : string) : bool :=
  match p, s with
  | EmptyString, _ => true
  | String a p', String b s' => Ascii.eqb a b && starts_with p' s'
  | String _ _, EmptyString => false
  end.

(** [p in s] for two strings: substring test. *)
Fixpoint str_contains (p s : string) : bool :=
  starts_with p s ||
  match s with
  | EmptyString => false
  | String _ s' => str_contains p s'
  end.

(** [s.find(p)]: index of the first occurrence, [None] for Python's -1. *)
Fixpoint str_find (p s : string) : option nat :=
  if starts_with p s then Some 0
  else match s with
       | EmptyString => None
       | String _ s' => option_map S (str_find p s')
       end.

(** [s[n:]] for [0 <= n]. *)
Fixpoint drop (n : nat) (s : string) : string :=
  match n, s with
  | 0, _ => s
  | S _, EmptyString => EmptyString
  | S n', String _ s' => drop n' s'
  end.

(** [s[:n]] for [0 <= n]. *)
Fixpoint take (n : nat) (s : string) : string :=
  match n, s with
  | 0, _ => EmptyString
  | S _, EmptyString => EmptyString
  | S n', String c s' => String c (take n' s')
  end.

(** [s[i:j]] for [0 <= i <= j]. *)
Definition slice (i j : nat) (s : string) : string := take (j - i) (drop i s).

(** [s.split(sep)] for a one-character separator: never the empty list. *)
Fixpoint split_on (sep : ascii) (s : string) : list string :=
  match s with
  | EmptyString => [EmptyString]
  | String c s' =>
      if Ascii.eqb c sep then EmptyString :: split_on sep s'
      else match split_on sep s' with
           | seg :: segs => String c seg :: segs
           | [] => [String c EmptyString]
           end
  end.

Fixpoint lstrip (s : string) : string :=
  match s with
  | EmptyString => EmptyString
  | String c s' => if is_space c then lstrip s' else s
  end.

Fixpoint rstrip (s : string) : string :=
  match s with
  | EmptyString => EmptyString
  | String c s' =>
      match rstrip s' with
      | EmptyString => if is_space c then EmptyString else String c EmptyString
      | r => String c r
      end
  end.

(** [s.strip()] *)
Definition strip (s : string) : string := rstrip (lstrip s).

(** ** JSON trees *)

#[local] Unset Elimination Schemes.

Inductive value : Type :=
| VNone
| VBool (b : bool)
| VInt (n : Z)
| VFloat (f : spec_float)
| VStr (s : string)
| VList (items : list value)
| VDict (entries : list (string * value)).

#[local] Set Elimination Schemes.

Definition dict : Type := list (string * value).

Section ValueInduction.
Variable P : value -> Prop.
Hypothesis HNone : P VNone.
Hypothesis HBool : forall b, P (VBool b).
Hypothesis HInt : forall n, P (VInt n).
Hypothesis HFloat : forall f, P (VFloat f).
Hypothesis HStr : forall s, P (VStr s).
Hypothesis HList : forall items, Forall P items -> P (VList items).
Hypothesis HDict :
  forall entries, Forall (fun kv => P (snd kv)) entries -> P (VDict entries).

Fixpoint value_nested_ind (v : value) : P v :=
  match v with
  | VNone => HNone
  | VBool b => HBool b
  | VInt n => HInt n
  | VFloat f => HFloat f
  | VStr s => HStr s
  | VList items =>
      HList items
        ((fix go (l : list value) : Forall P l :=
            match l with
            | [] => Forall_nil P
            | x :: l' => Forall_cons x (value_nested_ind x) (go l')
            end) items)
  | VDict entries =>
      HDict entries
        ((fix go (l : list (string * value)) :
            Forall (fun kv => P (snd kv)) l :=
            match l with
            | [] => Forall_nil _
            | kv :: l' =>
                Forall_cons kv (value_nested_ind (snd kv)) (go l')
            end) entries)
  end.
End ValueInduction.

Definition is_dict (v : value) : bool :=
  match v with VDict _ => true | _ => false end.

(** [bool(v)]: Python truthiness. *)
Definition py_truthy (v : value) : bool :=
  match v with
  | VNone => false
  | VBool b => b
  | VInt n => negb (Z.eqb n 0)
  | VFloat f => match f with S754_zero _ => false | _ => true end
  | VStr s => negb (String.eqb s "")
  | VList items => match items with [] => false | _ => true end
  | VDict entries => match entries with [] => false | _ => true end
  end.

(** [v == s] for a string literal [s]. *)
Definition eq_str (v : value) (s : string) : bool :=
  match v with VStr t => String.eqb t s | _ => false end.

(** [v is None] *)
Definition is_none (v : value) : bool :=
  match v with VNone => true | _ => false end.

(** [v == []] *)
Definition eq_empty_list (v : value) : bool :=
  match v with VList [] => true | _ => false end.

(** *** Dict primitives *)

(** [d.get(k)] as an option; [None] when the key is absent. *)
Fixpoint dict_get (k : string) (d : dict) : option value :=
  match d with
  | [] => None
  | (k', v) :: d' => if String.eqb k k' then Some v else dict_get k d'
  end.

(** [k in d] *)
Definition dict_mem (k : string) (d : dict) : bool :=
  match dict_get k d with Some _ => true | None => false end.

(** [d[k] = v]: an existing key keeps its place, a new key goes last. *)
Fixpoint dict_set (k : string) (v : value) (d : dict) : dict :=
  match d with
  | [] => [(k, v)]
  | (k', v') :: d' =>
      if String.eqb k k' then (k', v) :: d' else (k', v') :: dict_set k v d'
  end.

(** [key in container] for a string key. *)
Definition py_contains (key : string) (container : value) : result bool :=
  match container with
  | VDict d => Ok (dict_mem key d)
  | VStr s => Ok (str_contains key s)
  | VList items => Ok (existsb (fun x => eq_str x key) items)
  | _ => Raise TypeError
  end.

(** [container[key] = v] for a string key. *)
Definition py_setitem (container : value) (key : string) (v : value)
  : result value :=
  match container with
  | VDict d => Ok (VDict (dict_set key v d))
  | _ => Raise TypeError
  end.

(** [container[key]] for a string key. *)
Definition py_getitem (container : value) (key : string) : result value :=
  match container with
  | VDict d =>
      match dict_get key d with
      | Some v => Ok v
      | None => Raise KeyError
      end
  | _ => Raise TypeError
  end.

(** ** app.py: nested paths *)

Definition dot : ascii := "."%char.

(** The loop of [get_nested_value] over the split keys. *)
Fixpoint get_keys (v : value) (keys : list string) : value :=
  match keys with
  | [] => v
  | key :: rest =>
      match v with
      | VDict d =>
          get_keys (match dict_get key d with Some x => x | None => VNone end)
                   rest
      | _ => VNone
      end
  end.

Definition get_nested_value (data : value) (path : string) : value :=
  get_keys data (split_on dot path).

(** The loop of [set_nested_value] over [keys[:-1]] followed by the leaf
    assignment.  The child reached by [current = current[key]] is the very
    object stored under [key], so what the rest of the walk does to it is
    written back under the same key. *)
Fixpoint set_keys (current : value) (keys : list string) (v : value)
  : result value :=
  match keys with
  | [] => Ok current
  | key :: rest =>
      match rest with
      | [] => py_setitem current key v
      | _ :: _ =>
          present <- py_contains key current ;;
          current1 <- (if present then Ok current
                       else py_setitem current key (VDict [])) ;;
          child <- py_getitem current1 key ;;
          child' <- set_keys child rest v ;;
          py_setitem current1 key child'
      end
  end.

Definition set_nested_value (data : value) (path : string) (v : value)
  : result value :=
  set_keys data (split_on dot path) v.

(** ** app.py: mandatory fields *)

Definition MANDATORY_FIELDS : list (string * string) :=
  [ ("complainant.name", "Complainant Name");
    ("complainant.address", "Complainant Address");
    ("complainant.phone", "Phone Number");
    ("incident.location.address", "Incident Location");
    ("incident.datetime.occurred_on", "Incident Date");
    ("offense_details.type", "Offense Type");
    ("offense_details.description", "Offense Description") ].

(** [missing[field_path] = field_label] on a dict of labels. *)
Fixpoint label_set (k : string) (v : string) (d : list (string * string))
  : list (string * string) :=
  match d with
  | [] => [(k, v)]
  | (k', v') :: d' =>
      if String.eqb k k' then (k', v) :: d' else (k', v') :: label_set k v d'
  end.

(** [not value or value == "null" or value == ""] *)
Definition field_is_missing (v : value) : bool :=
  negb (py_truthy v) || eq_str v "null" || eq_str v "".

Definition validate_step (data : value) (missing : list (string * string))
  (field : string * string) : list (string * string) :=
  let '(field_path, field_label) := field in
  if field_is_missing (get_nested_value data field_path)
  then label_set field_path field_label missing
  else missing.

Definition validate_fields (fields : list (string * string)) (data : value)
  : list (string * string) :=
  fold_left (validate_step data) fields [].

Definition validate_mandatory_fields (data : value) : list (string * string) :=
  validate_fields MANDATORY_FIELDS data.

(** ** app.py: the missing-fields form and its submit handler *)

Definition offense_types : list string :=
  [ "theft"; "robbery"; "assault"; "fraud"; "cheating";
    "intimidation"; "extortion"; "harassment"; "other" ].

(** A calendar date as [datetime.date] holds it. *)
Record date : Type := mkDate { year : nat; month : nat; day : nat }.

Definition digit_char (n : nat) : ascii := ascii_of_nat (48 + n mod 10).

(** [n] written with exactly [width] decimal digits (low digits kept). *)
Fixpoint zero_padded (width n : nat) : string :=
  match width with
  | 0 => EmptyString
  | S w => zero_padded w (n / 10) ++ String (digit_char n) EmptyString
  end.

(** [str(n)] for a natural number: its decimal digits, no padding. *)
Definition str_of_nat (n : nat) : string :=
  NilZero.string_of_uint (Nat.to_uint n).

(** [d.strftime("%Y-%m-%d")]: month and day on two digits; the year as
    the C library writes [%Y], its digits without padding (999 gives
    "999-01-15"). *)
Definition strftime_ymd (d : date) : string :=
  str_of_nat (year d) ++ "-" ++ zero_padded 2 (month d) ++ "-"
  ++ zero_padded 2 (day d).

(** What the three kinds of widget hand back for a given label: the picked
    date, the index of the picked option, the typed text. *)
Record widgets : Type := mkWidgets {
  date_input : string -> date;
  selectbox : string -> nat;
  text_input : string -> string
}.

(** One round of the loop that fills [user_inputs] from [missing_fields]. *)
Definition form_step (w : widgets) (user_inputs : list (string * string))
  (field : string * string) : list (string * string) :=
  let '(field_path, field_label) := field in
  let label := field_label ++ " *" in
  if str_contains "date" (lower field_path)
     || str_contains "occurred_on" field_path
  then label_set field_path (strftime_ymd (date_input w label)) user_inputs
  else if str_contains "type" field_path && str_contains "offense" field_path
  then label_set field_path (nth (selectbox w label) offense_types "theft")
         user_inputs
  else label_set field_path (text_input w label) user_inputs.

Definition form_user_inputs (w : widgets) (missing : list (string * string))
  : list (string * string) :=
  fold_left (form_step w) missing [].

(** The loop under [st.form_submit_button]: every non-empty input is set
    into the extracted data; an exception of [set_nested_value] ends it. *)
Fixpoint apply_user_inputs (data : value) (user_inputs : list (string * string))
  : result value :=
  match user_inputs with
  | [] => Ok data
  | (field_path, v) :: rest =>
      if py_truthy (VStr v)
      then data' <- set_nested_value data field_path (VStr v) ;;
           apply_user_inputs data' rest
      else apply_user_inputs data rest
  end.

(** The handler from the validation of the extracted data to the updated
    data. *)
Definition submit_missing_information (w : widgets) (extracted_data : value)
  : result value :=
  let missing_fields := validate_mandatory_fields extracted_data in
  apply_user_inputs extracted_data (form_user_inputs w missing_fields).

(** ** utils.py: DataFormatter.remove_nulls *)

Fixpoint remove_nulls (data : value) : value :=
  match data with
  | VDict entries =>
      VDict
        ((fix over_items (l : dict) : dict :=
            match l with
            | [] => []
            | (k, v) :: l' =>
                if negb (is_none v) && negb (eq_empty_list v)
                   && negb (eq_str v "")
                then (k, remove_nulls v) :: over_items l'
                else over_items l'
            end) entries)
  | VList items =>
      VList
        ((fix over_list (l : list value) : list value :=
            match l with
            | [] => []
            | item :: l' =>
                if negb (is_none item)
                then remove_nulls item :: over_list l'
                else over_list l'
            end) items)
  | _ => data
  end.

(** ** Regular expressions as [re] runs them

    The patterns of [utils.py] only use literals, classes, sequence, ordered
    alternation, greedy repetition and capture groups.  [rmatch] is the
    backtracking matcher: it tries the alternatives in the order [re] does
    and hands the rest of the text to a continuation, so the first success
    is the match [re] reports.  Every repeated sub-pattern of the program
    consumes at least one character; an iteration that consumes nothing is
    not taken. *)

Inductive regex : Type :=
| Eps
| Lit (c : ascii)
| Class (p : ascii -> bool)
| Seq (r1 r2 : regex)
| Alt (r1 r2 : regex)
| Star (r : regex)
| Group (i : nat) (r : regex).

Definition Opt (r : regex) : regex := Alt r Eps.
Definition Plus (r : regex) : regex := Seq r (Star r).

Fixpoint Str (s : string) : regex :=
  match s with
  | EmptyString => Eps
  | String c s' => Seq (Lit c) (Str s')
  end.

Fixpoint Alts (rs : list regex) (last : regex) : regex :=
  match rs with
  | [] => last
  | r :: rs' => Alt r (Alts rs' last)
  end.

(** [r{n}] *)
Fixpoint Times (n : nat) (r : regex) : regex :=
  match n with
  | 0 => Eps
  | S n' => Seq r (Times n' r)
  end.

(** [r{0,n}], greedy *)
Fixpoint UpTo (n : nat) (r : regex) : regex :=
  match n with
  | 0 => Eps
  | S n' => Opt (Seq r (UpTo n' r))
  end.

(** [r{lo,hi}], greedy *)
Definition Between (lo hi : nat) (r : regex) : regex :=
  Seq (Times lo r) (UpTo (hi - lo) r).

(** The captured groups of a match attempt, most recent first. *)
Definition captures : Type := list (nat * string).

Fixpoint group (i : nat) (cs : captures) : option string :=
  match cs with
  | [] => None
  | (j, s) :: cs' => if Nat.eqb i j then Some s else group i cs'
  end.

Definition lit_matches (icase : bool) (c ch : ascii) : bool :=
  if icase then Ascii.eqb (lower_char c) (lower_char ch) else Ascii.eqb c ch.

Definition class_matches (icase : bool) (p : ascii -> bool) (ch : ascii)
  : bool :=
  if icase then p ch || p (lower_char ch) || p (upper_char ch) else p ch.

Section Matcher.
Variable icase : bool.
Variable R : Type.

Fixpoint rmatch (r : regex) (s : string) (cs : captures)
  (k : string -> captures -> option R) {struct r} : option R :=
  match r with
  | Eps => k s cs
  | Lit c =>
      match s with
      | String ch s' => if lit_matches icase c ch then k s' cs else None
      | EmptyString => None
      end
  | Class p =>
      match s with
      | String ch s' => if class_matches icase p ch then k s' cs else None
      | EmptyString => None
      end
  | Seq r1 r2 => rmatch r1 s cs (fun s' cs' => rmatch r2 s' cs' k)
  | Alt r1 r2 =>
      match rmatch r1 s cs k with
      | Some x => Some x
      | None => rmatch r2 s cs k
      end
  | Star r1 =>
      (fix loop (fuel : nat) (s : string) (cs : captures) : option R :=
         match fuel with
         | 0 => k s cs
         | S fuel' =>
             match
               rmatch r1 s cs
                 (fun s' cs' =>
                    if (String.length s' <? String.length s)%nat
                    then loop fuel' s' cs' else None)
             with
             | Some x => Some x
             | None => k s cs
             end
         end) (String.length s) s cs
  | Group i r1 =>
      rmatch r1 s cs
        (fun s' cs' =>
           k s' ((i, take (String.length s - String.length s') s) :: cs'))
  end.
End Matcher.

(** [pattern.match(s)]: the text left after the match and the groups. *)
Definition match_prefix (icase : bool) (r : regex) (s : string)
  : option (string * captures) :=
  rmatch icase (string * captures) r s [] (fun s' cs => Some (s', cs)).

(** One match of a scan: where it starts, what it covers, its groups. *)
Record found : Type := mkFound {
  m_start : nat;
  m_text : string;
  m_groups : captures
}.

Definition m_end (m : found) : nat := m_start m + String.length (m_text m).

(** The scan of [re.finditer]: leftmost match, then on from its end (one
    character further after an empty match or a failure). *)
Fixpoint scan (fuel : nat) (icase : bool) (r : regex) (pos : nat) (s : string)
  : list found :=
  match fuel with
  | 0 => []
  | S fuel' =>
      let step :=
        match s with
        | EmptyString => []
        | String _ t => scan fuel' icase r (S pos) t
        end in
      match match_prefix icase r s with
      | Some (s', cs) =>
          let n := String.length s - String.length s' in
          mkFound pos (take n s) cs ::
            match n with
            | 0 => step
            | S _ => scan fuel' icase r (pos + n) s'
            end
      | None => step
      end
  end.

Definition finditer (icase : bool) (r : regex) (text : string) : list found :=
  scan (S (String.length text)) icase r 0 text.

(** [re.findall] for a pattern without groups: the matched texts. *)
Definition findall (icase : bool) (r : regex) (text : string) : list string :=
  map m_text (finditer icase r text).

(** [re.findall] for a pattern with the single group 1: the group's text. *)
Definition findall_group (icase : bool) (r : regex) (text : string)
  : list string :=
  map (fun m => match group 1 (m_groups m) with Some g => g | None => "" end)
      (finditer icase r text).

(** [re.sub(class, '', s)] for a one-character class. *)
Fixpoint remove_chars (p : ascii -> bool) (s : string) : string :=
  match s with
  | EmptyString => EmptyString
  | String c s' => if p c then remove_chars p s' else String c (remove_chars p s')
  end.

(** *** Character classes of the patterns *)

Definition digit : regex := Class is_digit.
Definition space : regex := Class is_space.
Definition in_range (lo hi : ascii) (c : ascii) : bool :=
  ((nat_of_ascii lo <=? nat_of_ascii c)
   && (nat_of_ascii c <=? nat_of_ascii hi))%nat.
Definition one_of (s : string) (c : ascii) : bool :=
  existsb (Ascii.eqb c) (list_ascii_of_string s).
Definition range (lo hi : ascii) : regex := Class (in_range lo hi).

(** ** utils.py: TextProcessor *)

(** [(?:Jan|Feb|Mar|Apr|May|Jun|Jul|Aug|Sep|Oct|Nov|Dec)] *)
Definition month_abbrev : regex :=
  Alts (map Str [ "Jan"; "Feb"; "Mar"; "Apr"; "May"; "Jun";
                  "Jul"; "Aug"; "Sep"; "Oct"; "Nov" ])
       (Str "Dec").

Definition dash_or_slash : regex := Class (one_of "-/").
Definition letters : regex := Star (range "a" "z").

Definition date_patterns : list regex :=
  [ (* \d{1,2}[-/]\d{1,2}[-/]\d{2,4} *)
    Seq (Between 1 2 digit) (Seq dash_or_slash (Seq (Between 1 2 digit)
      (Seq dash_or_slash (Between 2 4 digit))));
    (* \d{4}[-/]\d{1,2}[-/]\d{1,2} *)
    Seq (Times 4 digit) (Seq dash_or_slash (Seq (Between 1 2 digit)
      (Seq dash_or_slash (Between 1 2 digit))));
    (* \d{1,2}\s+(?:Jan|...|Dec)[a-z]*\s+\d{2,4} *)
    Seq (Between 1 2 digit) (Seq (Plus space) (Seq month_abbrev
      (Seq letters (Seq (Plus space) (Between 2 4 digit)))));
    (* (?:Jan|...|Dec)[a-z]*\s+\d{1,2},?\s+\d{2,4} *)
    Seq month_abbrev (Seq letters (Seq (Plus space) (Seq (Between 1 2 digit)
      (Seq (Opt (Lit ",")) (Seq (Plus space) (Between 2 4 digit)))))) ].

Definition extract_dates (text : string) : list string :=
  fold_left (fun dates pattern => (dates ++ findall true pattern text)%list)
            date_patterns [].

(** [(?:AM|PM|am|pm)] *)
Definition am_pm : regex := Alts [Str "AM"; Str "PM"; Str "am"] (Str "pm").

Definition time_patterns : list regex :=
  [ (* \d{1,2}:\d{2}\s*(?:AM|PM|am|pm)? *)
    Seq (Between 1 2 digit) (Seq (Lit ":") (Seq (Times 2 digit)
      (Seq (Star space) (Opt am_pm))));
    (* \d{1,2}\s*(?:AM|PM|am|pm) *)
    Seq (Between 1 2 digit) (Seq (Star space) am_pm);
    (* around\s+\d{1,2}(?::\d{2})? *)
    Seq (Str "around") (Seq (Plus space) (Seq (Between 1 2 digit)
      (Opt (Seq (Lit ":") (Times 2 digit))))) ].

Definition extract_times (text : string) : list string :=
  fold_left (fun times pattern => (times ++ findall true pattern text)%list)
            time_patterns [].

Definition six_to_nine : regex := range "6" "9".
Definition dash_or_space : regex :=
  Class (fun c => Ascii.eqb c "-" || is_space c).

Definition phone_patterns : list regex :=
  [ (* [6-9]\d{9} *)
    Seq six_to_nine (Times 9 digit);
    (* \+91[-\s]?[6-9]\d{9} *)
    Seq (Str "+91") (Seq (Opt dash_or_space) (Seq six_to_nine (Times 9 digit)));
    (* 0\d{2,4}[-\s]?\d{6,8} *)
    Seq (Lit "0") (Seq (Between 2 4 digit) (Seq (Opt dash_or_space)
      (Between 6 8 digit))) ].

Definition extract_phone_numbers (text : string) : list string :=
  fold_left (fun phones pattern => (phones ++ findall false pattern text)%list)
            phone_patterns [].

(** [(\d+(?:,\d+)*(?:\.\d+)?)] as group 1 *)
Definition amount_number : regex :=
  Group 1 (Seq (Plus digit) (Seq (Star (Seq (Lit ",") (Plus digit)))
    (Opt (Seq (Lit ".") (Plus digit))))).

(** The three characters that stand for the rupee sign in the source file,
    as the seven bytes of their UTF-8 form. *)
Definition rupee_sign : string :=
  string_of_list_ascii
    (map ascii_of_nat [195; 162; 226; 128; 154; 194; 185]).

Definition amount_patterns : list (regex * string) :=
  [ (* (?:Rs\.?|<rupee sign>)\s*(...)\s*(?:lakh|lakhs|L)? *)
    (Seq (Alt (Seq (Str "Rs") (Opt (Lit "."))) (Str rupee_sign))
       (Seq (Star space) (Seq amount_number (Seq (Star space)
          (Opt (Alts [Str "lakh"; Str "lakhs"] (Str "L")))))),
     "INR");
    (* (...)\s*(?:rupees|Rs\.?|INR) *)
    (Seq amount_number (Seq (Star space)
       (Alts [Str "rupees"; Seq (Str "Rs") (Opt (Lit "."))] (Str "INR"))),
     "INR") ].

Definition prec : Z := 53.
Definition emax : Z := 1024.

(** The binary64 number nearest to [m / 10^k]. *)
Definition float_of_decimal (m : Z) (k : nat) : spec_float :=
  match m with
  | Zpos p =>
      SFdiv prec emax (S754_finite false p 0)
        (S754_finite false (Z.to_pos (10 ^ Z.of_nat k)) 0)
  | _ => S754_zero false
  end.

Definition float_of_Z (n : Z) : spec_float := binary_normalize prec emax n 0 false.

Definition digit_value (c : ascii) : Z := Z.of_nat (nat_of_ascii c - 48).

(** Reads the leading digits of [s] onto [acc]; also how many were read. *)
Fixpoint read_digits (s : string) (acc : Z) (count : nat)
  : Z * nat * string :=
  match s with
  | String c s' =>
      if is_digit c then read_digits s' (acc * 10 + digit_value c) (S count)
      else (acc, count, s)
  | EmptyString => (acc, count, s)
  end.

(** [float(s)] on the shapes [digits], [digits.digits], [digits.] and
    [.digits]; any other text is a [ValueError] here.  The text passed by
    [extract_amounts] is group 1 without commas and whitespace, which is
    always of the second or first shape. *)
Definition py_float (s : string) : result spec_float :=
  let '(whole, n1, rest) := read_digits s 0 0 in
  match rest with
  | EmptyString =>
      if (n1 =? 0)%nat then Raise ValueError else Ok (float_of_decimal whole 0)
  | String c rest' =>
      if Ascii.eqb c "." then
        let '(all, n2, rest'') := read_digits rest' whole 0 in
        match rest'' with
        | EmptyString =>
            if (n1 + n2 =? 0)%nat then Raise ValueError
            else Ok (float_of_decimal all n2)
        | String _ _ => Raise ValueError
        end
      else Raise ValueError
  end.

Definition lakh : spec_float := float_of_Z 100000.

(** [text[text.find(match):text.find(match)+20]]; the group is a piece of
    the text, so [find] does find it. *)
Definition lakh_window (text mtch : string) : string :=
  match str_find mtch text with
  | Some i => slice i (i + 20) text
  | None => EmptyString
  end.

(** The body of the inner loop of [extract_amounts] for one match. *)
Definition amount_step (text currency : string) (amounts : list value)
  (mtch : string) : list value :=
  let amount_str :=
    remove_chars (fun c => Ascii.eqb c "," || is_space c) mtch in
  match py_float amount_str with
  | Ok amount =>
      let amount :=
        if str_contains "lakh" (lower (lakh_window text mtch))
        then SFmul prec emax amount lakh else amount in
      (amounts
       ++ [VDict [("amount", VFloat amount); ("currency", VStr currency)]])%list
  | Raise _ => amounts
  end.

Definition extract_amounts (text : string) : list value :=
  fold_left
    (fun amounts pc =>
       let '(pattern, currency) := pc in
       fold_left (amount_step text currency)
                 (findall_group true pattern text) amounts)
    amount_patterns [].

Definition offense_keywords : list (string * list string) :=
  [ ("theft", ["steal"; "stole"; "stolen"; "theft"; "thief"; "snatched";
               "snatch"; "took away"]);
    ("robbery", ["rob"; "robbed"; "robbery"; "loot"; "looted"; "held up";
                 "gun point"; "knife point"]);
    ("assault", ["beat"; "beaten"; "hit"; "attack"; "attacked"; "assault";
                 "hurt"; "injured"; "wound"]);
    ("fraud", ["fraud"; "cheat"; "cheated"; "deceive"; "scam"; "fake";
               "forged"; "forgery"]);
    ("extortion", ["extort"; "extortion"; "demand"; "ransom";
                   "threaten for money"]);
    ("harassment", ["harass"; "harassment"; "trouble"; "disturb"; "stalking";
                    "eve teasing"]);
    ("intimidation", ["threaten"; "threatened"; "intimidate"; "intimidation";
                      "scare"; "frightened"]) ].

(** The loop of [identify_offense_keywords]: a category is appended at its
    first keyword found in the lowered text. *)
Definition identified_offenses (text : string) : list string :=
  let text_lower := lower text in
  fold_left
    (fun identified entry =>
       let '(offense_type, keywords) := entry in
       if existsb (fun keyword => str_contains keyword text_lower) keywords
       then (identified ++ [offense_type])%list else identified)
    offense_keywords [].

(** [list(set(identified_offenses))]: the distinct categories.  Python
    leaves the order of a set open; the list here keeps the first
    occurrences, and only membership and emptiness are meant. *)
Definition identify_offense_keywords (text : string) : list string :=
  nodup string_dec (identified_offenses text).

(** ** utils.py: DataFormatter.format_datetime_display *)

(** The pattern [datetime.strptime] compiles for ['%Y-%m-%d']:
    [(?P<Y>\d\d\d\d)-(?P<m>1[0-2]|0[1-9]|[1-9])-(?P<d>3[0-1]|[1-2]\d|0[1-9]|[1-9]| [1-9])],
    with the groups [Y], [m], [d] numbered 1, 2, 3. *)
Definition strptime_regex : regex :=
  Seq (Group 1 (Times 4 digit))
    (Seq (Lit "-")
       (Seq (Group 2 (Alts [ Seq (Lit "1") (range "0" "2");
                             Seq (Lit "0") (range "1" "9") ]
                           (range "1" "9")))
          (Seq (Lit "-")
             (Group 3 (Alts [ Seq (Lit "3") (range "0" "1");
                              Seq (range "1" "2") digit;
                              Seq (Lit "0") (range "1" "9");
                              range "1" "9" ]
                            (Seq (Lit " ") (range "1" "9"))))))).

(** [int(s)] for a group of the pattern above: digits after optional
    blanks. *)
Definition py_int (s : string) : nat :=
  let '(n, _, _) := read_digits (lstrip s) 0 0 in Z.to_nat n.

Definition is_leap (y : nat) : bool :=
  ((y mod 4 =? 0) && (negb (y mod 100 =? 0) || (y mod 400 =? 0)))%nat.

Definition days_in_month (y m : nat) : nat :=
  match m with
  | 2 => if is_leap y then 29 else 28
  | 4 | 6 | 9 | 11 => 30
  | _ => 31
  end.

(** The range checks of the [date] constructor. *)
Definition make_date (y m d : nat) : result date :=
  if ((1 <=? y) && (Z.of_nat y <=? 9999)%Z && (1 <=? m) && (m <=? 12)
      && (1 <=? d) && (d <=? days_in_month y m))%nat
  then Ok (mkDate y m d)
  else Raise ValueError.

(** [datetime.strptime(data_string, '%Y-%m-%d')], its date part. *)
Definition strptime_ymd (data_string : string) : result date :=
  match match_prefix true strptime_regex data_string with
  | None => Raise ValueError
  | Some (rest, cs) =>
      if negb (String.eqb rest "") then Raise ValueError
      else
        match group 1 cs, group 2 cs, group 3 cs with
        | Some y, Some m, Some d => make_date (py_int y) (py_int m) (py_int d)
        | _, _, _ => Raise ValueError
        end
  end.

Definition month_names : list string :=
  [ "January"; "February"; "March"; "April"; "May"; "June"; "July";
    "August"; "September"; "October"; "November"; "December" ].

(** [date_obj.strftime('%d %B %Y')]: the day on two digits, the English
    month name, the year written without padding (999 gives
    "15 January 999"). *)
Definition strftime_dBY (d : date) : string :=
  zero_padded 2 (day d) ++ " " ++ nth (month d - 1) month_names ""
  ++ " " ++ str_of_nat (year d).

(** [bool(time_str)] for an optional string. *)
Definition time_given (time_str : option string) : bool :=
  match time_str with
  | Some t => negb (String.eqb t "")
  | None => false
  end.

(** [time_str or ''] *)
Definition time_or_empty (time_str : option string) : string :=
  match time_str with
  | Some t => t
  | None => EmptyString
  end.

(** The [try] block. *)
Definition format_datetime_try (date_str : string) (time_str : option string)
  : result string :=
  date_obj <- strptime_ymd date_str ;;
  let formatted := strftime_dBY date_obj in
  Ok (if time_given time_str
      then formatted ++ " at " ++ time_or_empty time_str
      else formatted).

(** The whole function: [ValueError] and [TypeError] are caught, any other
    exception leaves the function. *)
Definition format_datetime_display (date_str : string)
  (time_str : option string) : result string :=
  match format_datetime_try date_str time_str with
  | Ok formatted => Ok formatted
  | Raise ValueError | Raise TypeError =>
      Ok (strip (date_str ++ " " ++ time_or_empty time_str))
  | Raise e => Raise e
  end.

(** ** utils.py: FIRValidator *)

(** The class [[\s\-\(\)]] that [validate_phone] removes. *)
Definition phone_separator (c : ascii) : bool := is_space c || one_of "-()" c.

Definition newline : string := String (ascii_of_nat 10) EmptyString.

(** Where [$] holds: at the end of the text or before a final newline. *)
Definition at_end (s : string) : bool := String.eqb s "" || String.eqb s newline.

(** [^[6-9]\d{9}$], the anchors apart. *)
Definition mobile_regex : regex := Seq six_to_nine (Times 9 digit).

(** [bool(re.match(pattern, phone_clean))]: the pattern has a single way
    to match, so [$] is a test on what the match leaves. *)
Definition validate_phone (phone : string) : bool :=
  let phone_clean := remove_chars phone_separator phone in
  match match_prefix false mobile_regex phone_clean with
  | Some (rest, _) => at_end rest
  | None => false
  end.

(** [try: strptime(...); return True / except ValueError: return False] *)
Definition validate_date (date_str : string) : result bool :=
  match strptime_ymd date_str with
  | Ok _ => Ok true
  | Raise ValueError => Ok false
  | Raise e => Raise e
  end.

(** The pattern [datetime.strptime] compiles for ['%H:%M']:
    [(?P<H>2[0-3]|[0-1]\d|\d):(?P<M>[0-5]\d|\d)], groups 1 and 2. *)
Definition strptime_hm_regex : regex :=
  Seq (Group 1 (Alts [ Seq (Lit "2") (range "0" "3");
                       Seq (range "0" "1") digit ]
                     digit))
    (Seq (Lit ":")
       (Group 2 (Alt (Seq (range "0" "5") digit) digit))).

(** [datetime.strptime(data_string, '%H:%M')]: the hour and the minute. *)
Definition strptime_hm (data_string : string) : result (nat * nat) :=
  match match_prefix true strptime_hm_regex data_string with
  | None => Raise ValueError
  | Some (rest, cs) =>
      if negb (String.eqb rest "") then Raise ValueError
      else
        match group 1 cs, group 2 cs with
        | Some h, Some m => Ok (py_int h, py_int m)
        | _, _ => Raise ValueError
        end
  end.

Definition validate_time (time_str : string) : result bool :=
  match strptime_hm time_str with
  | Ok _ => Ok true
  | Raise ValueError => Ok false
  | Raise e => Raise e
  end.

(** [re.sub(r'\D', '', phone)], then the last ten digits when there are
    more. *)
Definition clean_phone (phone : string) : string :=
  let phone_digits := remove_chars (fun c => negb (is_digit c)) phone in
  if (10 <? String.length phone_digits)%nat
  then drop (String.length phone_digits - 10) phone_digits
  else phone_digits.

(** ** app.py: the text of the model's answer before [json.loads] *)

Definition fence : string := "```".

(** [s.split(sep)] for a separator of several characters: [skip] counts the
    characters of a separator still to pass over. *)
Fixpoint split_by_aux (sep : string) (skip : nat) (s : string) : list string :=
  match s with
  | EmptyString => [EmptyString]
  | String c s' =>
      match skip with
      | S n => split_by_aux sep n s'
      | 0 =>
          if starts_with sep s
          then EmptyString :: split_by_aux sep (String.length sep - 1) s'
          else match split_by_aux sep 0 s' with
               | seg :: segs => String c seg :: segs
               | [] => [String c EmptyString]
               end
      end
  end.

Definition split_by (sep s : string) : list string := split_by_aux sep 0 s.

(** The clean-up of [extract_data_from_complaint] between the answer and
    [json.loads]; [None] stands for the [IndexError] of [[1]]. *)
Definition unfence (json_str : string) : option string :=
  if starts_with fence json_str then
    match nth_error (split_by fence json_str) 1 with
    | Some json_str =>
        Some (if starts_with "json" json_str then drop 4 json_str
              else json_str)
    | None => None
    end
  else Some json_str.

Definition response_json_text (content : string) : option string :=
  unfence (strip content).

(** ** utils.py: DataFormatter.generate_fir_number *)

(** [s.upper()] on ASCII text: the letters a to z are raised and every
    other character stays.  On other characters Python's [upper] does more
    (it can lengthen the text), which this definition does not cover. *)
Fixpoint upper (s : string) : string :=
  match s with
  | EmptyString => EmptyString
  | String c s' => String (upper_char c) (upper s')
  end.

(** [district[:3].upper() if district else "UNK"] *)
Definition district_code (district : option string) : string :=
  match district with
  | Some d => if negb (String.eqb d "") then upper (take 3 d) else "UNK"
  | None => "UNK"
  end.

(** The number for a district, with the year (the current one when none is
    passed) and the value drawn by [random.randint(1000, 9999)] given. *)
Definition generate_fir_number (district : option string) (year : nat)
  (sequential : nat) : string :=
  district_code district ++ "-" ++ str_of_nat year ++ "-"
  ++ str_of_nat sequential.

(** ** app.py: the record returned when the extraction fails *)

(** [schema['original_text'] = complaint_text] and
    [schema['complaint_metadata']['submission_datetime'] = now] on the
    loaded schema; the metadata dict is changed in place, which is written
    back under its key. *)
Definition fallback_record (schema : value) (complaint_text now : string)
  : result value :=
  schema1 <- py_setitem schema "original_text" (VStr complaint_text) ;;
  metadata <- py_getitem schema1 "complaint_metadata" ;;
  metadata' <- py_setitem metadata "submission_datetime" (VStr now) ;;
  py_setitem schema1 "complaint_metadata" metadata'.

(** ** Predicates the properties are stated with *)

(** A field as the specification counts it present: not null (the absent
    sentinel of [get_nested_value] is [None] too), not the empty string, not
    the string "null". *)
Definition non_null_non_empty (v : value) : bool :=
  negb (is_none v) && negb (eq_str v "") && negb (eq_str v "null").

(** The walk of [set_nested_value] along [keys] meets, under a key that is
    not the last one, a value that is not a dict. *)
Inductive blocked : value -> list string -> Prop :=
| blocked_here (d : dict) (k : string) (rest : list string) (x : value) :
    dict_get k d = Some x -> is_dict x = false -> rest <> [] ->
    blocked (VDict d) (k :: rest)
| blocked_below (d : dict) (k : string) (rest : list string) (x : value) :
    dict_get k d = Some x -> blocked x rest ->
    blocked (VDict d) (k :: rest).

(** The dict after the test [if key not in current: current[key] = {}]. *)
Definition ensure_key (k : string) (d : dict) : dict :=
  if dict_mem k d then d else dict_set k (VDict []) d.

(** The test of [validate_mandatory_fields] on one entry of the table. *)
Definition missing_entry (data : value) (field : string * string) : bool :=
  field_is_missing (get_nested_value data (fst field)).

(** [l1] is [l2] with some elements left out, the order kept. *)
Inductive sublist {A : Type} : list A -> list A -> Prop :=
| sublist_nil : sublist [] []
| sublist_skip (x : A) (l1 l2 : list A) :
    sublist l1 l2 -> sublist l1 (x :: l2)
| sublist_keep (x : A) (l1 l2 : list A) :
    sublist l1 l2 -> sublist (x :: l1) (x :: l2).

(** The condition of the dict comprehension of [remove_nulls]. *)
Definition kept_in_dict (v : value) : bool :=
  negb (is_none v) && negb (eq_empty_list v) && negb (eq_str v "").

(** The two comprehensions of [remove_nulls], as a filter then a map. *)
Definition prune_entries (entries : dict) : dict :=
  map (fun kv => (fst kv, remove_nulls (snd kv)))
      (filter (fun kv => kept_in_dict (snd kv)) entries).

Definition prune_items (items : list value) : list value :=
  map remove_nulls (filter (fun x => negb (is_none x)) items).

(** A node the specification wants gone: null, empty string, empty list or
    empty dict. *)
Definition is_empty_node (v : value) : bool :=
  match v with
  | VNone | VStr EmptyString | VList [] | VDict [] => true
  | _ => false
  end.

(** No such node below [v], at any depth. *)
Fixpoint no_empty_inside (v : value) : bool :=
  match v with
  | VList items =>
      forallb (fun x => negb (is_empty_node x) && no_empty_inside x) items
  | VDict entries =>
      forallb (fun kv => negb (is_empty_node (snd kv))
                         && no_empty_inside (snd kv)) entries
  | _ => true
  end.

(** What [remove_nulls] does reach: below [v], no list item is null and no
    dict value is null or the empty string. *)
Fixpoint pruned (v : value) : bool :=
  match v with
  | VList items => forallb (fun x => negb (is_none x) && pruned x) items
  | VDict entries =>
      forallb (fun kv => negb (is_none (snd kv)) && negb (eq_str (snd kv) "")
                         && pruned (snd kv)) entries
  | _ => true
  end.

(** A tree [remove_nulls] leaves as it is: below [v], no list item is null
    and every dict value passes the comprehension's condition. *)
Fixpoint settled (v : value) : bool :=
  match v with
  | VList items => forallb (fun x => negb (is_none x) && settled x) items
  | VDict entries =>
      forallb (fun kv => kept_in_dict (snd kv) && settled (snd kv)) entries
  | _ => true
  end.

(** A list with at least one item, all of them null. *)
Definition only_nulls (v : value) : bool :=
  match v with
  | VList (x :: items) => forallb is_none (x :: items)
  | _ => false
  end.

(** Below [v], no dict value is a list of nulls only. *)
Fixpoint no_null_list_values (v : value) : bool :=
  match v with
  | VList items => forallb no_null_list_values items
  | VDict entries =>
      forallb (fun kv => negb (only_nulls (snd kv))
                         && no_null_list_values (snd kv)) entries
  | _ => true
  end.

(** A keyword standing as a word of its own: it occurs with no letter,
    digit or underscore right before it and right after it. *)
Definition is_word_char (c : ascii) : bool :=
  is_digit c || is_lower c || is_upper c || Ascii.eqb c "_".

Definition starts_at_boundary (s : string) : bool :=
  match s with
  | EmptyString => true
  | String c _ => negb (is_word_char c)
  end.

Fixpoint word_scan (before_is_word : bool) (kw s : string) : bool :=
  (negb before_is_word && starts_with kw s
   && starts_at_boundary (drop (String.length kw) s))
  || match s with
     | EmptyString => false
     | String c s' => word_scan (is_word_char c) kw s'
     end.

Definition occurs_as_word (kw s : string) : bool := word_scan false kw s.

(** [s'] is what is left of [s] after some leading characters. *)
Inductive suffix : string -> string -> Prop :=
| suffix_refl (s : string) : suffix s s
| suffix_skip (c : ascii) (s' s : string) :
    suffix s' s -> suffix s' (String c s).

(** The matches of one scan, from position [from] on: each starts at or
    after the end of the one before it, and strictly after its start. *)
Fixpoint spans_in_order (from : nat) (ms : list found) : Prop :=
  match ms with
  | [] => True
  | m :: ms' =>
      from <= m_start m
      /\ spans_in_order (Nat.max (m_end m) (S (m_start m))) ms'
  end.

(** [a] lies to the left of [b] in the text, without overlap. *)
Definition left_of (a b : found) : Prop :=
  m_end a <= m_start b /\ m_start a < m_start b.

(** What one match of an amount pattern adds to the result: one candidate,
    or nothing. *)
Definition amount_candidate (text currency mtch : string) : list value :=
  amount_step text currency [] mtch.

(** The candidates in the order of their first occurrence in the text. *)
Fixpoint positions_ascend (ps : list (option nat)) : bool :=
  match ps with
  | Some i :: ((Some j :: _) as rest) => (i <=? j)%nat && positions_ascend rest
  | _ => true
  end.

Definition ordered_by_first_match (text : string) (cands : list string)
  : bool :=
  positions_ascend (map (fun c => str_find c text) cands).

(** Field paths as sequences of segments: [p] is an initial part of [q]. *)
Fixpoint is_prefix (p q : list string) : bool :=
  match p, q with
  | [], _ => true
  | a :: p', b :: q' => String.eqb a b && is_prefix p' q'
  | _ :: _, [] => false
  end.

(** Neither path is an initial part of the other. *)
Definition apart (p q : list string) : bool :=
  negb (is_prefix p q) && negb (is_prefix q p).

Fixpoint pairwise_apart (ps : list (list string)) : bool :=
  match ps with
  | [] => true
  | p :: rest => forallb (apart p) rest && pairwise_apart rest
  end.

Definition keys_of (input : string * string) : list string :=
  split_on dot (fst input).

(** The test [if value:] of the submit loop on one input. *)
Definition non_empty (input : string * string) : bool :=
  negb (String.eqb (snd input) "").

(** What the form puts into [user_inputs] for one missing field. *)
Definition widget_value (w : widgets) (field : string * string) : string :=
  let label := snd field ++ " *" in
  if str_contains "date" (lower (fst field))
     || str_contains "occurred_on" (fst field)
  then strftime_ymd (date_input w label)
  else if str_contains "type" (fst field) && str_contains "offense" (fst field)
  then nth (selectbox w label) offense_types "theft"
  else text_input w label.

(** A partly filled record and one filling of the form, for the examples:
    the address is typed, the phone number is left blank, a date is picked
    and the second offense type is chosen. *)
Definition sample_data : value :=
  VDict
    [ ("complainant",
       VDict [ ("name", VStr "Rajesh Kumar"); ("address", VNone);
               ("phone", VStr "") ]);
      ("incident",
       VDict [ ("location", VDict [("address", VStr "City Market")]) ]);
      ("offense_details",
       VDict [ ("type", VNone); ("description", VStr "chain snatched") ]) ].

Definition sample_widgets : widgets :=
  mkWidgets
    (fun _ => mkDate 2025 1 15)
    (fun _ => 1)
    (fun label =>
       if String.eqb label "Complainant Address *" then "45 MG Road" else "").

Definition sample_filled : value :=
  VDict
    [ ("complainant",
       VDict [ ("name", VStr "Rajesh Kumar"); ("address", VStr "45 MG Road");
               ("phone", VStr "") ]);
      ("incident",
       VDict [ ("location", VDict [("address", VStr "City Market")]);
               ("datetime", VDict [("occurred_on", VStr "2025-01-15")]) ]);
      ("offense_details",
       VDict [ ("type", VStr "robbery");
               ("description", VStr "chain snatched") ]) ].

(** A date the [date] constructor accepts. *)
Definition valid_date (d : date) : Prop :=
  1 <= year d /\ (Z.of_nat (year d) <= 9999)%Z /\ 1 <= month d <= 12
  /\ 1 <= day d <= days_in_month (year d) (month d).

(** The input of a field of the form is neither empty nor "null". *)
Definition filled_in (input : string * string) : bool :=
  negb (String.eqb (snd input) "") && negb (String.eqb (snd input) "null").

(** A scalar that is neither null nor the empty string. *)
Definition filled_scalar (v : value) : bool :=
  match v with
  | VBool _ | VInt _ | VFloat _ => true
  | VStr s => negb (String.eqb s "")
  | _ => false
  end.

(** Every character of [s] passes [p]. *)
Fixpoint all_chars (p : ascii -> bool) (s : string) : bool :=
  match s with
  | EmptyString => true
  | String c s' => p c && all_chars p s'
  end.

(** Ten digits, the first of them from 6 to 9. *)
Definition is_mobile (s : string) : bool :=
  (String.length s =? 10)%nat && all_chars is_digit s
  && match s with
     | String c _ => in_range "6" "9" c
     | EmptyString => false
     end.

(** The keys of a dict value, in order. *)
Definition dict_keys (v : value) : list string :=
  match v with
  | VDict entries => map fst entries
  | _ => []
  end.

(** The part of [strptime_regex] after the year. *)
Definition strptime_month_day : regex :=
  Seq (Lit "-")
    (Seq (Group 2 (Alts [ Seq (Lit "1") (range "0" "2");
                          Seq (Lit "0") (range "1" "9") ]
                        (range "1" "9")))
       (Seq (Lit "-")
          (Group 3 (Alts [ Seq (Lit "3") (range "0" "1");
                           Seq (range "1" "2") digit;
                           Seq (Lit "0") (range "1" "9");
                           range "1" "9" ]
                         (Seq (Lit " ") (range "1" "9")))))).

(** [hh:mm], both on two digits. *)
Definition clock_text (h m : nat) : string :=
  zero_padded 2 h ++ ":" ++ zero_padded 2 m.

(** [strptime_hm] on [clock_text h m] gives the hour and minute back when
    they are in range and fails with [ValueError] otherwise. *)
Definition clock_parses (h m : nat) : bool :=
  match strptime_hm (clock_text h m) with
  | Ok (h', m') => (h <? 24) && (m <? 60) && (h' =? h) && (m' =? m)
  | Raise ValueError => negb ((h <? 24) && (m <? 60))
  | Raise _ => false
  end%nat.

(** A text of ASCII characters only. *)
Definition ascii_text (s : string) : bool :=
  all_chars (fun c => (nat_of_ascii c <? 128)%nat) s.

(** A text without any backtick. *)
Definition no_backtick (s : string) : bool :=
  all_chars (fun c => negb (Ascii.eqb c "`")) s.

(** The shape of a candidate of [extract_amounts]. *)
Definition is_inr_amount (c : value) : Prop :=
  exists amount,
    c = VDict [("amount", VFloat amount); ("currency", VStr "INR")].

(** * Properties *)

(** ** Dicts and paths *)

Lemma dict_get_set_same (k : string) (v : value) (d : dict) :
  dict_get k (dict_set k v d) = Some v.
Proof.
  induction d as [|[k' v'] d IH]; simpl.
  - now rewrite String.eqb_refl.
  - destruct (String.eqb k k') eqn:E; simpl; rewrite E; auto.
Qed.

Lemma dict_get_set_other (k k' : string) (v : value) (d : dict) :
  k <> k' -> dict_get k' (dict_set k v d) = dict_get k' d.
Proof.
  intros Hne. induction d as [|[k0 v0] d IH]; simpl.
  - destruct (String.eqb k' k) eqn:E; auto.
    apply String.eqb_eq in E. congruence.
  - destruct (String.eqb k k0) eqn:E; simpl.
    + apply String.eqb_eq in E. subst k0.
      destruct (String.eqb k' k) eqn:E'; auto.
      apply String.eqb_eq in E'. congruence.
    + now rewrite IH.
Qed.

Lemma dict_mem_get (k : string) (d : dict) :
  dict_mem k d = true -> exists x, dict_get k d = Some x.
Proof.
  unfold dict_mem. destruct (dict_get k d); eauto. discriminate.
Qed.

Lemma split_on_nonempty (sep : ascii) (s : string) : split_on sep s <> [].
Proof.
  destruct s as [|c s]; simpl; [discriminate|].
  destruct (Ascii.eqb c sep); [discriminate|].
  destruct (split_on sep s); discriminate.
Qed.

(** One round of the walk of [set_nested_value] on a dict: the key is
    present afterwards, either as it was or fresh and empty. *)
Lemma set_keys_step (d : dict) (k k2 : string) (rest : list string)
  (v : value) :
  set_keys (VDict d) (k :: k2 :: rest) v =
  (child <- py_getitem (VDict (ensure_key k d)) k ;;
   child' <- set_keys child (k2 :: rest) v ;;
   Ok (VDict (dict_set k child' (ensure_key k d)))).
Proof.
  unfold ensure_key. simpl. destruct (dict_mem k d); reflexivity.
Qed.

Lemma set_keys_not_dict (x : value) (keys : list string) (v : value) :
  is_dict x = false -> keys <> [] -> set_keys x keys v = Raise TypeError.
Proof.
  intros Hx Hk. destruct keys as [|k rest]; [congruence|].
  destruct rest as [|k2 rest].
  - destruct x; simpl in *; congruence.
  - destruct x; simpl in *; try congruence.
    + destruct (str_contains k s); reflexivity.
    + destruct (existsb _ items); reflexivity.
Qed.

Lemma set_keys_get_keys (keys : list string) :
  keys <> [] ->
  forall (tree tree' v : value),
    set_keys tree keys v = Ok tree' -> get_keys tree' keys = v.
Proof.
  induction keys as [|k rest IH]; [congruence|]. intros _ tree tree' v H.
  destruct (is_dict tree) eqn:Hd.
  2:{ rewrite set_keys_not_dict in H; [discriminate|assumption|discriminate]. }
  destruct tree as [| | | | | |d]; try discriminate Hd.
  destruct rest as [|k2 rest].
  - simpl in H. injection H as <-. simpl. now rewrite dict_get_set_same.
  - rewrite set_keys_step in H. unfold py_getitem in H.
    destruct (dict_get k (ensure_key k d)) as [child|]; cbn [bind] in H;
      [|discriminate H].
    destruct (set_keys child (k2 :: rest) v) as [child'|e] eqn:Hc;
      cbn [bind] in H; [|discriminate H].
    injection H as <-.
    cbn [get_keys]. rewrite dict_get_set_same.
    apply (IH ltac:(discriminate) child child' v Hc).
Qed.

Lemma blocked_length (tree : value) (keys : list string) :
  blocked tree keys -> 2 <= List.length keys.
Proof.
  induction 1 as [d k rest x _ _ Hr | d k rest x _ _ IH]; simpl.
  - destruct rest; [congruence|simpl; lia].
  - lia.
Qed.

Lemma blocked_raises (tree : value) (keys : list string) (v : value) :
  blocked tree keys -> set_keys tree keys v = Raise TypeError.
Proof.
  induction 1 as [d k rest x Hg Hx Hr | d k rest x Hg Hb IH].
  - destruct rest as [|k2 rest]; [congruence|].
    rewrite set_keys_step. unfold ensure_key, dict_mem. rewrite Hg.
    unfold py_getitem. rewrite Hg. cbn [bind].
    rewrite set_keys_not_dict; [reflexivity|assumption|discriminate].
  - pose proof (blocked_length _ _ Hb) as Hl.
    destruct rest as [|k2 rest]; [simpl in Hl; lia|].
    rewrite set_keys_step. unfold ensure_key, dict_mem. rewrite Hg.
    unfold py_getitem. rewrite Hg. cbn [bind]. now rewrite IH.
Qed.

(** On a dict, the walk fails only when it is blocked. *)
Lemma not_blocked_succeeds (keys : list string) :
  keys <> [] ->
  forall (d : dict) (v : value),
    ~ blocked (VDict d) keys -> exists tree', set_keys (VDict d) keys v = Ok tree'.
Proof.
  induction keys as [|k rest IH]; [congruence|]. intros _ d v Hnb.
  destruct rest as [|k2 rest].
  - simpl. eauto.
  - rewrite set_keys_step. unfold ensure_key.
    destruct (dict_mem k d) eqn:Hm.
    + destruct (dict_mem_get _ _ Hm) as [x Hg].
      unfold py_getitem. rewrite Hg. cbn [bind].
      destruct (is_dict x) eqn:Hx.
      * destruct x as [| | | | | |dx]; try discriminate Hx.
        destruct (IH ltac:(discriminate) dx v) as [c' Hc'].
        { intro Hb. apply Hnb. eapply blocked_below; eauto. }
        rewrite Hc'. cbn [bind]. eauto.
      * exfalso. apply Hnb. eapply blocked_here; eauto. discriminate.
    + unfold py_getitem. rewrite dict_get_set_same. cbn [bind].
      destruct (IH ltac:(discriminate) [] v) as [c' Hc'].
      { intro Hb. inversion Hb; subst; simpl in *; discriminate. }
      rewrite Hc'. cbn [bind]. eauto.
Qed.

(** C2, as the code has it: whenever [set_nested_value] returns, a
    [get_nested_value] of the same path on the updated tree gives the value
    that was set; it does return on every dict in which no intermediate
    segment of the path holds a non-dict value; and on the empty tree it
    returns for every path and value, with the round trip. *)
Theorem get_after_set (tree : value) (path : string) (v : value) :
  (forall tree', set_nested_value tree path v = Ok tree' ->
                 get_nested_value tree' path = v)
  /\ (is_dict tree = true -> ~ blocked tree (split_on dot path) ->
      exists tree', set_nested_value tree path v = Ok tree'
                    /\ get_nested_value tree' path = v)
  /\ (exists fresh, set_nested_value (VDict []) path v = Ok fresh
                    /\ get_nested_value fresh path = v).
Proof.
  unfold set_nested_value, get_nested_value.
  pose proof (split_on_nonempty dot path) as Hne.
  assert (Hget : forall t t', set_keys t (split_on dot path) v = Ok t' ->
                              get_keys t' (split_on dot path) = v)
    by (intros t t'; now apply set_keys_get_keys).
  split; [apply Hget|]. split.
  - intros Hd Hnb. destruct tree as [| | | | | |d]; try discriminate Hd.
    destruct (not_blocked_succeeds _ Hne d v Hnb) as [tree' Hs]. eauto.
  - destruct (not_blocked_succeeds _ Hne [] v) as [fresh Hf].
    { intro Hb. inversion Hb; subst; simpl in *; discriminate. }
    eauto.
Qed.

Lemma get_after_set_witness :
  set_nested_value (VDict [("a", VDict [("b", VInt 1)])]) "a.c.d" (VStr "x")
  = Ok (VDict [("a", VDict [("b", VInt 1); ("c", VDict [("d", VStr "x")])])])
  /\ get_nested_value
       (VDict [("a", VDict [("b", VInt 1); ("c", VDict [("d", VStr "x")])])])
       "a.c.d" = VStr "x".
Proof.
  split; [reflexivity|].
  apply (proj1 (get_after_set (VDict [("a", VDict [("b", VInt 1)])]) "a.c.d"
                  (VStr "x")) _ eq_refl).
Defined.

(** C2, as the specification words it, fails: on the tree [{"a": 1}] the
    path "a.b" cannot be set, so no updated tree exists to read from. *)
Lemma get_after_set_counterexample :
  ~ (forall (tree : value) (path : string) (v : value),
       exists tree', set_nested_value tree path v = Ok tree'
                     /\ get_nested_value tree' path = v).
Proof.
  intros H.
  destruct (H (VDict [("a", VInt 1)]) "a.b" (VStr "x")) as [t [Hs _]].
  discriminate Hs.
Qed.

(** C9: when the walk of [set_nested_value] meets a non-dict value under a
    key that is not the last of the path, the path has at least two
    segments and the call raises [TypeError]; nothing is overwritten. *)
Theorem set_nested_value_raises_when_blocked (tree : value) (path : string)
  (v : value) :
  blocked tree (split_on dot path) ->
  2 <= List.length (split_on dot path)
  /\ set_nested_value tree path v = Raise TypeError.
Proof.
  intros Hb. split.
  - eapply blocked_length; eauto.
  - now apply blocked_raises.
Qed.

Lemma set_nested_value_raises_when_blocked_witness :
  blocked (VDict [("a", VInt 7)]) (split_on dot "a.b")
  /\ 2 <= List.length (split_on dot "a.b")
  /\ set_nested_value (VDict [("a", VInt 7)]) "a.b" (VStr "x")
     = Raise TypeError.
Proof.
  assert (Hb : blocked (VDict [("a", VInt 7)]) (split_on dot "a.b")).
  { apply blocked_here with (x := VInt 7); [reflexivity|reflexivity|].
    discriminate. }
  split; [exact Hb|].
  exact (set_nested_value_raises_when_blocked
           (VDict [("a", VInt 7)]) "a.b" (VStr "x") Hb).
Defined.

(** ** Mandatory fields *)

Lemma label_set_fresh (k v : string) (d : list (string * string)) :
  ~ In k (map fst d) -> label_set k v d = (d ++ [(k, v)])%list.
Proof.
  induction d as [|[k' v'] d IH]; simpl; intros Hn; [reflexivity|].
  destruct (String.eqb k k') eqn:E.
  - apply String.eqb_eq in E. subst. tauto.
  - rewrite IH; tauto.
Qed.

Lemma validate_fold (data : value) (fields acc : list (string * string)) :
  NoDup (map fst acc ++ map fst fields) ->
  fold_left (validate_step data) fields acc
  = (acc ++ filter (missing_entry data) fields)%list.
Proof.
  revert acc. induction fields as [|[p l] fields IH]; intros acc Hnd; simpl.
  - now rewrite app_nil_r.
  - unfold missing_entry at 1. simpl.
    assert (Hp : ~ In p (map fst acc)).
    { intro Hin. apply NoDup_remove_2 in Hnd. apply Hnd.
      apply in_or_app. now left. }
    destruct (field_is_missing (get_nested_value data p)).
    + rewrite label_set_fresh by assumption. rewrite IH.
      * now rewrite <- app_assoc.
      * rewrite map_app, <- app_assoc. exact Hnd.
    + apply IH. now apply NoDup_remove_1 in Hnd.
Qed.

Lemma mandatory_paths_nodup : NoDup (map fst MANDATORY_FIELDS).
Proof.
  simpl. repeat constructor; simpl; intuition discriminate.
Qed.

Lemma validate_is_filter (data : value) :
  validate_mandatory_fields data = filter (missing_entry data) MANDATORY_FIELDS.
Proof.
  unfold validate_mandatory_fields, validate_fields.
  rewrite validate_fold; [reflexivity|]. exact mandatory_paths_nodup.
Qed.

Lemma field_is_missing_false (v : value) :
  field_is_missing v = false <-> py_truthy v = true /\ v <> VStr "null".
Proof.
  unfold field_is_missing. split.
  - intros H. apply orb_false_iff in H as [H1 H3].
    apply orb_false_iff in H1 as [H1 H2].
    apply negb_false_iff in H1. split; [assumption|].
    intros ->. discriminate H2.
  - intros [Ht Hn]. rewrite Ht. simpl.
    destruct v; simpl in *; try reflexivity.
    destruct (String.eqb s "null") eqn:E.
    + apply String.eqb_eq in E. congruence.
    + simpl. destruct (String.eqb s ""); [discriminate Ht|reflexivity].
Qed.

Lemma filter_nil_iff {A : Type} (f : A -> bool) (l : list A) :
  filter f l = [] <-> forall x, In x l -> f x = false.
Proof.
  induction l as [|a l IH]; simpl.
  - split; [intros _ x []|reflexivity].
  - destruct (f a) eqn:E; split.
    + discriminate.
    + intros H. rewrite (H a) in E; [discriminate|now left].
    + intros H x [<-|Hx]; [assumption|]. now apply IH.
    + intros H. apply IH. intros x Hx. apply H. now right.
Qed.

Lemma filter_sublist {A : Type} (f : A -> bool) (l : list A) :
  sublist (filter f l) l.
Proof.
  induction l as [|a l IH]; simpl; [constructor|].
  destruct (f a); now constructor.
Qed.

(** C1, as the code has it: the result lists, in the declared order of
    [MANDATORY_FIELDS], exactly the entries whose value is falsy (null or
    absent, false, a zero number, an empty string, list or dict) or the
    string "null"; it is empty exactly when every mandatory path resolves
    to a truthy value other than "null". *)
Theorem validate_mandatory_fields_spec (data : value) :
  validate_mandatory_fields data
  = filter (fun field => field_is_missing (get_nested_value data (fst field)))
           MANDATORY_FIELDS
  /\ sublist (validate_mandatory_fields data) MANDATORY_FIELDS
  /\ (validate_mandatory_fields data = [] <->
      forall path label, In (path, label) MANDATORY_FIELDS ->
        py_truthy (get_nested_value data path) = true
        /\ get_nested_value data path <> VStr "null").
Proof.
  pose proof (validate_is_filter data) as Hf. split; [exact Hf|]. split.
  - rewrite Hf. apply filter_sublist.
  - rewrite Hf, filter_nil_iff. split.
    + intros H path label Hin. apply field_is_missing_false.
      apply (H (path, label) Hin).
    + intros H [path label] Hin. apply field_is_missing_false.
      now apply (H path label).
Qed.

Lemma validate_mandatory_fields_spec_witness :
  validate_mandatory_fields sample_filled = [("complainant.phone", "Phone Number")]
  /\ sublist [("complainant.phone", "Phone Number")] MANDATORY_FIELDS.
Proof.
  split; [reflexivity|].
  exact (proj1 (proj2 (validate_mandatory_fields_spec sample_filled))).
Defined.

(** C1, as the specification words it, fails: here every mandatory path
    resolves to a value that is not null, not empty and not "null", yet
    the phone number 0 is reported missing. *)
Lemma validate_mandatory_fields_counterexample :
  let data :=
    VDict
      [ ("complainant",
         VDict [ ("name", VStr "Rajesh Kumar");
                 ("address", VStr "45 MG Road, Bengaluru");
                 ("phone", VInt 0) ]);
        ("incident",
         VDict [ ("location", VDict [("address", VStr "City Market")]);
                 ("datetime", VDict [("occurred_on", VStr "2025-01-15")]) ]);
        ("offense_details",
         VDict [ ("type", VStr "robbery");
                 ("description", VStr "gold chain snatched") ]) ] in
  forallb (fun field => non_null_non_empty (get_nested_value data (fst field)))
          MANDATORY_FIELDS = true
  /\ validate_mandatory_fields data = [("complainant.phone", "Phone Number")].
Proof.
  split; reflexivity.
Qed.

(** ** remove_nulls *)

Lemma remove_nulls_dict (entries : dict) :
  remove_nulls (VDict entries) = VDict (prune_entries entries).
Proof.
  unfold prune_entries. simpl. f_equal.
  induction entries as [|[k v] entries IH]; simpl; [reflexivity|].
  unfold kept_in_dict at 1.
  destruct (negb (is_none v) && negb (eq_empty_list v) && negb (eq_str v ""));
    simpl; now rewrite IH.
Qed.

Lemma remove_nulls_list (items : list value) :
  remove_nulls (VList items) = VList (prune_items items).
Proof.
  unfold prune_items. simpl. f_equal.
  induction items as [|x items IH]; simpl; [reflexivity|].
  destruct (negb (is_none x)); simpl; now rewrite IH.
Qed.

Lemma remove_nulls_none (v : value) :
  is_none (remove_nulls v) = is_none v.
Proof. destruct v; reflexivity. Qed.

Lemma remove_nulls_empty_str (v : value) :
  eq_str (remove_nulls v) "" = eq_str v "".
Proof. destruct v; reflexivity. Qed.

Lemma forallb_map {A B : Type} (f : A -> B) (p : B -> bool) (l : list A) :
  forallb p (map f l) = forallb (fun x => p (f x)) l.
Proof. induction l; simpl; congruence. Qed.

Lemma forallb_filter_in {A : Type} (p q : A -> bool) (l : list A) :
  (forall x, In x l -> p x = true -> q x = true) ->
  forallb q (filter p l) = true.
Proof.
  intros H. apply forallb_forall. intros x Hx.
  apply filter_In in Hx as [Hin Hp]. auto.
Qed.

Lemma remove_nulls_is_pruned (data : value) :
  pruned (remove_nulls data) = true.
Proof.
  induction data as [| | | | |items IH|entries IH] using value_nested_ind;
    try reflexivity.
  - rewrite remove_nulls_list. unfold prune_items. cbn [pruned].
    rewrite forallb_map. apply forallb_filter_in. intros x Hin Hx.
    rewrite remove_nulls_none, Hx. simpl.
    rewrite Forall_forall in IH. now apply IH.
  - rewrite remove_nulls_dict. unfold prune_entries. cbn [pruned].
    rewrite forallb_map. apply forallb_filter_in. intros [k v] Hin Hk.
    cbn [fst snd] in *. rewrite remove_nulls_none, remove_nulls_empty_str.
    unfold kept_in_dict in Hk.
    apply andb_true_iff in Hk as [Hk H3]. apply andb_true_iff in Hk as [H1 H2].
    rewrite H1, H3. simpl.
    rewrite Forall_forall in IH. apply (IH (k, v) Hin).
Qed.

(** C3, as the code has it.  In the tree [remove_nulls] returns, at every
    depth, no list item is null and no dict value is null or an empty
    string.  A scalar is returned as it is.  Of a list exactly the items
    that are not null are kept, in their order, each pruned in turn: empty
    strings and empty containers inside a list stay.  Of a dict exactly
    the keys whose value in the input is not null, not an empty string and
    not an empty list are kept, in their order, each value pruned in turn:
    a value that is an empty list goes, an empty dict stays; this is
    stated for the dicts that hold no list of nulls only as a value.  The
    result is built anew, the argument is not touched. *)
Theorem remove_nulls_pruned (data : value) :
  pruned (remove_nulls data) = true
  /\ match data with
     | VList items => remove_nulls data = VList (prune_items items)
     | VDict entries =>
         forallb (fun kv => negb (only_nulls (snd kv))) entries = true ->
         remove_nulls data = VDict (prune_entries entries)
     | _ => remove_nulls data = data
     end.
Proof.
  split; [apply remove_nulls_is_pruned|].
  destruct data as [| | | | |items|entries]; try reflexivity.
  - apply remove_nulls_list.
  - intros _. apply remove_nulls_dict.
Qed.

Lemma remove_nulls_pruned_witness :
  remove_nulls
    (VDict [("a", VNone); ("b", VList []); ("c", VStr ""); ("d", VDict []);
            ("e", VList [VNone; VStr ""; VList []])])
  = VDict [("d", VDict []); ("e", VList [VStr ""; VList []])].
Proof.
  apply (proj2 (remove_nulls_pruned
    (VDict [("a", VNone); ("b", VList []); ("c", VStr ""); ("d", VDict []);
            ("e", VList [VNone; VStr ""; VList []])]))).
  reflexivity.
Defined.

(** C3, as the specification words it, fails: a dict emptied by the
    pruning of its children stays in the result, and so does an empty
    string in a list. *)
Lemma remove_nulls_counterexample :
  remove_nulls (VDict [("a", VDict [("b", VNone)]); ("c", VList [VStr ""])])
  = VDict [("a", VDict []); ("c", VList [VStr ""])]
  /\ no_empty_inside
       (remove_nulls
          (VDict [("a", VDict [("b", VNone)]); ("c", VList [VStr ""])]))
     = false.
Proof. split; reflexivity. Qed.

Lemma filter_all {A : Type} (p : A -> bool) (l : list A) :
  forallb p l = true -> filter p l = l.
Proof.
  induction l as [|a l IH]; simpl; [reflexivity|].
  intros H. apply andb_true_iff in H as [Ha Hl]. rewrite Ha. f_equal. auto.
Qed.

Lemma map_fixed {A : Type} (f : A -> A) (l : list A) :
  (forall x, In x l -> f x = x) -> map f l = l.
Proof.
  induction l as [|a l IH]; simpl; [reflexivity|].
  intros H. f_equal; auto.
Qed.

Lemma map_filter_length {A B : Type} (f : A -> B) (p : A -> bool)
  (l : list A) :
  List.length (map f (filter p l)) <= List.length l.
Proof.
  induction l as [|a l IH]; simpl; [lia|].
  destruct (p a); simpl; lia.
Qed.

(** A filter followed by a map gives the list back only if nothing was
    dropped and nothing was changed. *)
Lemma map_filter_fixed {A : Type} (f : A -> A) (p : A -> bool) (l : list A) :
  map f (filter p l) = l -> forall x, In x l -> p x = true /\ f x = x.
Proof.
  induction l as [|a l IH]; simpl; [intros _ x []|].
  destruct (p a) eqn:Ha; simpl; intros H.
  - injection H as H1 H2. intros x [<-|Hx]; auto.
  - pose proof (map_filter_length f p l) as Hl. rewrite H in Hl.
    simpl in Hl. lia.
Qed.

Lemma settled_fixed (u : value) : settled u = true -> remove_nulls u = u.
Proof.
  induction u as [| | | | |items IH|entries IH] using value_nested_ind;
    try reflexivity; cbn [settled]; intros H;
    rewrite forallb_forall in H; rewrite Forall_forall in IH.
  - rewrite remove_nulls_list. unfold prune_items. f_equal.
    rewrite filter_all.
    + apply map_fixed. intros x Hx. apply IH; [assumption|].
      specialize (H x Hx). now apply andb_true_iff in H.
    + apply forallb_forall. intros x Hx.
      specialize (H x Hx). now apply andb_true_iff in H.
  - rewrite remove_nulls_dict. unfold prune_entries. f_equal.
    rewrite filter_all.
    + apply map_fixed. intros [k v] Hx. cbn [fst snd]. f_equal.
      apply (IH (k, v) Hx). specialize (H _ Hx).
      now apply andb_true_iff in H.
    + apply forallb_forall. intros x Hx.
      specialize (H x Hx). now apply andb_true_iff in H.
Qed.

Lemma fixed_settled (u : value) : remove_nulls u = u -> settled u = true.
Proof.
  induction u as [| | | | |items IH|entries IH] using value_nested_ind;
    try reflexivity; intros H; cbn [settled];
    apply forallb_forall; rewrite Forall_forall in IH.
  - rewrite remove_nulls_list in H. injection H as H.
    intros x Hx. destruct (map_filter_fixed _ _ _ H x Hx) as [Hp Hf].
    rewrite Hp. simpl. now apply IH.
  - rewrite remove_nulls_dict in H. injection H as H.
    intros [k v] Hx. destruct (map_filter_fixed _ _ _ H _ Hx) as [Hp Hf].
    cbn [fst snd] in *. rewrite Hp. simpl.
    apply (IH (k, v) Hx). cbn [snd]. congruence.
Qed.

Lemma prune_items_nil (items : list value) :
  prune_items items = [] <-> forallb is_none items = true.
Proof.
  unfold prune_items. induction items as [|x items IH]; simpl.
  - tauto.
  - destruct (is_none x); simpl; [exact IH|]. split; discriminate.
Qed.

(** A value is pruned to the empty list when it is one, or holds nulls
    only. *)
Lemma remove_nulls_empty_list (v : value) :
  eq_empty_list (remove_nulls v) = eq_empty_list v || only_nulls v.
Proof.
  destruct v as [| | | | |items|entries]; try reflexivity.
  rewrite remove_nulls_list. destruct items as [|x items]; [reflexivity|].
  cbn [eq_empty_list only_nulls orb].
  destruct (forallb is_none (x :: items)) eqn:E.
  - apply prune_items_nil in E. now rewrite E.
  - destruct (prune_items (x :: items)) eqn:E'; [|reflexivity].
    apply prune_items_nil in E'. congruence.
Qed.

Lemma kept_after_pruning (v : value) :
  kept_in_dict v = true ->
  kept_in_dict (remove_nulls v) = negb (only_nulls v).
Proof.
  unfold kept_in_dict. intros H.
  apply andb_true_iff in H as [H H3]. apply andb_true_iff in H as [H1 H2].
  rewrite remove_nulls_none, remove_nulls_empty_str, remove_nulls_empty_list.
  rewrite H1, H3. apply negb_true_iff in H2. rewrite H2. simpl.
  now rewrite andb_true_r.
Qed.

Lemma not_kept_harmless (v : value) :
  kept_in_dict v = false ->
  only_nulls v = false /\ no_null_list_values v = true.
Proof.
  destruct v as [| | | |s|items|entries]; try discriminate; auto.
  destruct items; [auto|discriminate].
Qed.

Lemma settled_after_pruning (t : value) :
  settled (remove_nulls t) = true <-> no_null_list_values t = true.
Proof.
  induction t as [| | | | |items IH|entries IH] using value_nested_ind;
    try (split; reflexivity); rewrite Forall_forall in IH.
  - rewrite remove_nulls_list. unfold prune_items.
    cbn [settled no_null_list_values]. rewrite forallb_map.
    rewrite !forallb_forall. split; intros H x Hx.
    + destruct (is_none x) eqn:Hn; [now destruct x|].
      apply IH; [assumption|].
      assert (Hf : In x (filter (fun y => negb (is_none y)) items)).
      { apply filter_In. now rewrite Hn. }
      specialize (H x Hf). now apply andb_true_iff in H.
    + apply filter_In in Hx as [Hx Hn].
      rewrite remove_nulls_none, Hn. simpl. apply IH; auto.
  - rewrite remove_nulls_dict. unfold prune_entries.
    cbn [settled no_null_list_values]. rewrite forallb_map.
    rewrite !forallb_forall. split; intros H [k v] Hx; cbn [fst snd].
    + destruct (kept_in_dict v) eqn:Hk.
      * assert (Hf : In (k, v)
                       (filter (fun kv => kept_in_dict (snd kv)) entries)).
        { apply filter_In. split; [assumption|exact Hk]. }
        specialize (H _ Hf). cbn [fst snd] in H.
        apply andb_true_iff in H as [H1 H2].
        rewrite kept_after_pruning in H1 by assumption. rewrite H1. simpl.
        now apply (IH (k, v) Hx).
      * destruct (not_kept_harmless v Hk) as [-> ->]. reflexivity.
    + apply filter_In in Hx as [Hx Hk]. cbn [snd] in Hk.
      specialize (H _ Hx). cbn [snd] in H.
      apply andb_true_iff in H as [H1 H2].
      rewrite kept_after_pruning by assumption. rewrite H1. simpl.
      now apply (IH (k, v) Hx).
Qed.

(** A second [remove_nulls] changes nothing exactly on the trees in which,
    at any depth, no dict value is a list of nulls only. *)
Lemma remove_nulls_idempotent_iff (t : value) :
  remove_nulls (remove_nulls t) = remove_nulls t
  <-> no_null_list_values t = true.
Proof.
  rewrite <- settled_after_pruning. split.
  - apply fixed_settled.
  - apply settled_fixed.
Qed.

Lemma remove_nulls_idempotent_iff_witness :
  no_null_list_values
    (VDict [("a", VNone); ("b", VList [VNone; VStr "x"]); ("c", VDict [])])
  = true
  /\ remove_nulls (remove_nulls
       (VDict [("a", VNone); ("b", VList [VNone; VStr "x"]); ("c", VDict [])]))
     = remove_nulls
       (VDict [("a", VNone); ("b", VList [VNone; VStr "x"]); ("c", VDict [])]).
Proof.
  split; [reflexivity|].
  apply (proj2 (remove_nulls_idempotent_iff
    (VDict [("a", VNone); ("b", VList [VNone; VStr "x"]); ("c", VDict [])]))).
  reflexivity.
Defined.

(** C6, on the code: the dict comprehension drops a value that is an empty
    list, but looks at the value before its items are pruned; so the first
    pass turns a list of nulls into an empty list and keeps its key, and
    only the second pass drops it: [remove_nulls] is not idempotent
    there. *)
Theorem remove_nulls_second_pass_example :
  remove_nulls (VDict [("a", VList [VNone])]) = VDict [("a", VList [])]
  /\ remove_nulls (remove_nulls (VDict [("a", VList [VNone])])) = VDict []
  /\ remove_nulls (remove_nulls (VDict [("a", VList [VNone])]))
     <> remove_nulls (VDict [("a", VList [VNone])]).
Proof. repeat split; try reflexivity. discriminate. Qed.

(** ** format_datetime_display *)

Lemma make_date_raises (y m d : nat) (e : exn) :
  make_date y m d = Raise e -> e = ValueError.
Proof.
  unfold make_date. destruct (_ && _); [discriminate|]. congruence.
Qed.

(** [strptime] fails with [ValueError] only. *)
Lemma strptime_ymd_raises (s : string) (e : exn) :
  strptime_ymd s = Raise e -> e = ValueError.
Proof.
  unfold strptime_ymd.
  destruct (match_prefix true strptime_regex s) as [[rest cs]|];
    [|congruence].
  destruct (negb (String.eqb rest "")); [congruence|].
  destruct (group 1 cs); [|congruence].
  destruct (group 2 cs); [|congruence].
  destruct (group 3 cs); [|congruence].
  apply make_date_raises.
Qed.

Lemma append_empty_r (s : string) : s ++ "" = s.
Proof. induction s; simpl; congruence. Qed.

(** C8, as the code has it: the function always returns; when the date
    string parses, the result is the day on two digits, the full month
    name and the year as [strftime] writes it (without padding), followed
    by " at " and the time string when one is given and non-empty; when it
    does not parse, the result is the date string, a blank and the time
    string (nothing when none is given), with the whitespace at both ends
    stripped. *)
Theorem format_datetime_display_spec (date_str : string)
  (time_str : option string) :
  (exists shown, format_datetime_display date_str time_str = Ok shown)
  /\ (forall d, strptime_ymd date_str = Ok d ->
        format_datetime_display date_str time_str
        = Ok (strftime_dBY d
              ++ (if time_given time_str
                  then " at " ++ time_or_empty time_str else "")))
  /\ (forall e, strptime_ymd date_str = Raise e ->
        format_datetime_display date_str time_str
        = Ok (strip (date_str ++ " " ++ time_or_empty time_str))).
Proof.
  unfold format_datetime_display, format_datetime_try.
  destruct (strptime_ymd date_str) as [d|e] eqn:Hp; cbn [bind].
  - split; [eauto|]. split; [|discriminate].
    intros d' Hd. injection Hd as <-.
    destruct (time_given time_str); [reflexivity|].
    now rewrite append_empty_r.
  - apply strptime_ymd_raises in Hp. subst e.
    split; [eauto|]. split; [discriminate|]. reflexivity.
Qed.

Lemma format_datetime_display_spec_witness :
  strptime_ymd "2025-01-15" = Ok (mkDate 2025 1 15)
  /\ format_datetime_display "2025-01-15" (Some "20:30")
     = Ok "15 January 2025 at 20:30"
  /\ format_datetime_display "2025-01-15" None = Ok "15 January 2025"
  /\ format_datetime_display "2025-02-30" (Some "20:30")
     = Ok "2025-02-30 20:30".
Proof.
  split; [reflexivity|]. split; [|split].
  - exact (proj1 (proj2 (format_datetime_display_spec
                           "2025-01-15" (Some "20:30")))
             (mkDate 2025 1 15) eq_refl).
  - exact (proj1 (proj2 (format_datetime_display_spec "2025-01-15" None))
             (mkDate 2025 1 15) eq_refl).
  - exact (proj2 (proj2 (format_datetime_display_spec
                           "2025-02-30" (Some "20:30")))
             ValueError eq_refl).
Defined.

(** C8, as the specification words it, fails in three places.  On the
    fallback the raw concatenation is not returned unchanged, its outer
    whitespace is stripped.  A time string that is supplied but empty is
    not appended: no " at " follows the date.  And a date that parses with
    a year below 1000 is not shown with a year of four digits. *)
Lemma format_datetime_display_counterexample :
  ((exists e, strptime_ymd " 2025/01/15" = Raise e)
   /\ format_datetime_display " 2025/01/15" (Some "20:30")
      = Ok "2025/01/15 20:30"
   /\ format_datetime_display " 2025/01/15" (Some "20:30")
      <> Ok (" 2025/01/15" ++ " " ++ "20:30"))
  /\ (strptime_ymd "2025-01-15" = Ok (mkDate 2025 1 15)
      /\ format_datetime_display "2025-01-15" (Some "") = Ok "15 January 2025"
      /\ format_datetime_display "2025-01-15" (Some "")
         <> Ok ("15 January 2025" ++ " at " ++ ""))
  /\ (strptime_ymd "0999-01-15" = Ok (mkDate 999 1 15)
      /\ format_datetime_display "0999-01-15" None = Ok "15 January 999"
      /\ format_datetime_display "0999-01-15" None <> Ok "15 January 0999").
Proof.
  split; [|split].
  - split; [exists ValueError; reflexivity|].
    split; [reflexivity|discriminate].
  - split; [reflexivity|]. split; [reflexivity|discriminate].
  - split; [reflexivity|]. split; [reflexivity|discriminate].
Qed.

(** ** identify_offense_keywords *)

Lemma identified_fold (text_lower : string)
  (table : list (string * list string)) (acc : list string)
  (category : string) :
  In category
     (fold_left
        (fun identified entry =>
           let '(offense_type, keywords) := entry in
           if existsb (fun keyword => str_contains keyword text_lower) keywords
           then (identified ++ [offense_type])%list else identified)
        table acc)
  <-> In category acc
      \/ exists keywords keyword,
           In (category, keywords) table /\ In keyword keywords
           /\ str_contains keyword text_lower = true.
Proof.
  revert acc. induction table as [|[ty kws] table IH]; intros acc; simpl.
  - split; [auto|]. intros [H|[kws [kw [[] _]]]]. exact H.
  - rewrite IH. clear IH.
    destruct (existsb (fun keyword => str_contains keyword text_lower) kws)
      eqn:E.
    + apply existsb_exists in E as [kw [Hkw Hc]]. split.
      * intros [H|[kws' [kw' [Hin H]]]].
        -- apply in_app_or in H as [H|[<-|[]]]; [now left|].
           right. exists kws, kw. auto.
        -- right. exists kws', kw'. tauto.
      * intros [H|[kws' [kw' [[Heq|Hin] H]]]].
        -- left. apply in_or_app. now left.
        -- injection Heq as <- <-. left. apply in_or_app. right. now left.
        -- right. exists kws', kw'. tauto.
    + split.
      * intros [H|[kws' [kw' [Hin H]]]]; [now left|].
        right. exists kws', kw'. tauto.
      * intros [H|[kws' [kw' [[Heq|Hin] [Hk Hc]]]]]; [now left| |].
        -- injection Heq as <- <-.
           assert (Ht : existsb (fun keyword => str_contains keyword text_lower)
                          kws = true)
             by (apply existsb_exists; eauto).
           congruence.
        -- right. exists kws', kw'. tauto.
Qed.

(** C10: a category is returned exactly when one of its keywords is a
    substring of the lowered text, word boundaries playing no part; so
    "There is a problem", where no keyword of the table stands as a word,
    is given the category robbery for the "rob" inside "problem". *)
Theorem identify_offense_keywords_substring :
  (forall text category,
     In category (identify_offense_keywords text)
     <-> exists keywords keyword,
           In (category, keywords) offense_keywords /\ In keyword keywords
           /\ str_contains keyword (lower text) = true)
  /\ forallb
       (fun entry =>
          forallb (fun keyword =>
                     negb (occurs_as_word keyword (lower "There is a problem")))
                  (snd entry))
       offense_keywords = true
  /\ identify_offense_keywords "There is a problem" = ["robbery"].
Proof.
  split; [|split; reflexivity].
  intros text category. unfold identify_offense_keywords, identified_offenses.
  rewrite nodup_In. cbv zeta. rewrite identified_fold.
  split; [intros [[]|H]; exact H|auto].
Qed.

Lemma identify_offense_keywords_substring_witness :
  In "robbery" (identify_offense_keywords "No PROBLEM at all")
  /\ occurs_as_word "rob" (lower "No PROBLEM at all") = false.
Proof.
  split; [|reflexivity].
  apply (proj1 identify_offense_keywords_substring "No PROBLEM at all").
  exists ["rob"; "robbed"; "robbery"; "loot"; "looted"; "held up";
          "gun point"; "knife point"], "rob".
  split; [simpl; tauto|]. split; [simpl; tauto|reflexivity].
Defined.

(** ** The matcher and the scan *)

Lemma suffix_trans (a b c : string) : suffix a b -> suffix b c -> suffix a c.
Proof.
  intros Hab Hbc. induction Hbc; [assumption|]. constructor. auto.
Qed.

Lemma suffix_length (s' s : string) :
  suffix s' s -> String.length s' <= String.length s.
Proof. induction 1; simpl; lia. Qed.

Lemma drop_all_but (s' s : string) :
  suffix s' s -> drop (String.length s - String.length s') s = s'.
Proof.
  induction 1 as [s|c s' s H IH].
  - rewrite Nat.sub_diag. now destruct s.
  - pose proof (suffix_length _ _ H) as Hl. simpl String.length.
    replace (S (String.length s) - String.length s')
      with (S (String.length s - String.length s')) by lia.
    exact IH.
Qed.

Lemma drop_drop (n m : nat) (s : string) : drop n (drop m s) = drop (m + n) s.
Proof.
  revert s. induction m as [|m IH]; intros s; simpl; [reflexivity|].
  destruct s; [now destruct n|]. apply IH.
Qed.

Lemma take_length (n : nat) (s : string) :
  n <= String.length s -> String.length (take n s) = n.
Proof.
  revert s. induction n as [|n IH]; intros s H; simpl; [reflexivity|].
  destruct s; simpl in *; [lia|]. rewrite IH; lia.
Qed.

Section MatcherFacts.
Variable icase : bool.
Variable R : Type.

(** The continuation is only ever given what is left of the text. *)
Lemma rmatch_suffix (r : regex) :
  forall (s : string) (cs : captures) (k : string -> captures -> option R)
         (x : R),
    rmatch icase R r s cs k = Some x ->
    exists s' cs', suffix s' s /\ k s' cs' = Some x.
Proof.
  induction r as [|c|p|r1 IH1 r2 IH2|r1 IH1 r2 IH2|r1 IH1|i r1 IH1];
    intros s cs k x H.
  - exists s, cs. split; [constructor|exact H].
  - destruct s as [|ch s0]; simpl in H; [discriminate|].
    destruct (lit_matches icase c ch); [|discriminate].
    exists s0, cs. split; [repeat constructor|exact H].
  - destruct s as [|ch s0]; simpl in H; [discriminate|].
    destruct (class_matches icase p ch); [|discriminate].
    exists s0, cs. split; [repeat constructor|exact H].
  - simpl in H. apply IH1 in H as [s1 [cs1 [Hs1 H]]].
    apply IH2 in H as [s2 [cs2 [Hs2 H]]].
    exists s2, cs2. split; [eapply suffix_trans; eauto|exact H].
  - simpl in H. destruct (rmatch icase R r1 s cs k) eqn:E.
    + injection H as <-. now apply IH1 in E.
    + now apply IH2 in H.
  - simpl in H. revert H. generalize (String.length s).
    intros fuel. revert s cs.
    induction fuel as [|fuel IHf]; intros s cs H.
    + exists s, cs. split; [constructor|exact H].
    + match type of H with
      | match ?m with _ => _ end = _ => destruct m eqn:E
      end.
      * injection H as <-. apply IH1 in E as [s1 [cs1 [Hs1 E]]].
        destruct (String.length s1 <? String.length s)%nat; [|discriminate].
        apply IHf in E as [s2 [cs2 [Hs2 E]]].
        exists s2, cs2. split; [eapply suffix_trans; eauto|exact E].
      * exists s, cs. split; [constructor|exact H].
  - simpl in H. apply IH1 in H as [s1 [cs1 [Hs1 H]]].
    eexists _, _. split; [exact Hs1|exact H].
Qed.
End MatcherFacts.

Lemma match_prefix_suffix (icase : bool) (r : regex) (s s' : string)
  (cs : captures) :
  match_prefix icase r s = Some (s', cs) -> suffix s' s.
Proof.
  unfold match_prefix. intros H.
  apply rmatch_suffix in H as [s1 [cs1 [Hs H]]]. now injection H as <- <-.
Qed.

Lemma spans_in_order_weaken (from from' : nat) (ms : list found) :
  from' <= from -> spans_in_order from ms -> spans_in_order from' ms.
Proof.
  destruct ms as [|m ms]; simpl; [auto|]. intros Hle [H1 H2]. split; [lia|auto].
Qed.

Lemma scan_in_order (icase : bool) (r : regex) (text : string) (fuel : nat) :
  forall (pos : nat) (s : string),
    s = drop pos text ->
    spans_in_order pos (scan fuel icase r pos s)
    /\ Forall (fun m => m_text m = slice (m_start m) (m_end m) text)
              (scan fuel icase r pos s).
Proof.
  induction fuel as [|fuel IH]; intros pos s Hs; simpl; [auto|].
  assert (Hstep :
    let step := match s with
                | EmptyString => []
                | String _ t => scan fuel icase r (S pos) t
                end in
    spans_in_order (S pos) step
    /\ Forall (fun m => m_text m = slice (m_start m) (m_end m) text) step).
  { destruct s as [|c t]; simpl; [auto|]. apply IH.
    replace (S pos) with (pos + 1) by lia.
    rewrite <- drop_drop, <- Hs. reflexivity. }
  cbv zeta in Hstep. destruct Hstep as [Ho Hf].
  destruct (match_prefix icase r s) as [[s' cs]|] eqn:E.
  - apply match_prefix_suffix in E.
    pose proof (suffix_length _ _ E) as Hl.
    set (n := String.length s - String.length s') in *.
    assert (Hn : String.length (take n s) = n)
      by (apply take_length; unfold n; lia).
    assert (Hm : take n s = slice pos (pos + String.length (take n s)) text).
    { unfold slice. rewrite <- Hs, Hn.
      replace (pos + n - pos) with n by lia. reflexivity. }
    destruct n as [|n'] eqn:En.
    + split.
      * cbn [spans_in_order m_start]. split; [lia|].
        unfold m_end. cbn [m_start m_text].
        eapply spans_in_order_weaken; [|exact Ho]. lia.
      * constructor; [exact Hm|exact Hf].
    + destruct (IH (pos + S n') s') as [Ho' Hf'].
      { rewrite <- drop_drop, <- Hs. symmetry.
        subst n. rewrite <- En. now apply drop_all_but. }
      split.
      * cbn [spans_in_order m_start]. split; [lia|].
        unfold m_end. cbn [m_start m_text]. rewrite Hn.
        eapply spans_in_order_weaken; [|exact Ho']. lia.
      * constructor; [exact Hm|exact Hf'].
  - split; [|exact Hf]. eapply spans_in_order_weaken; [|exact Ho]. lia.
Qed.

Lemma spans_sorted (ms : list found) :
  forall from,
    spans_in_order from ms ->
    StronglySorted left_of ms /\ Forall (fun m => from <= m_start m) ms.
Proof.
  induction ms as [|m ms IH]; intros from; simpl.
  - split; constructor.
  - intros [H1 H2]. destruct (IH _ H2) as [Hs Hf]. split.
    + constructor; [exact Hs|].
      eapply Forall_impl; [|exact Hf]. intros b Hb. cbv beta in Hb.
      unfold left_of. lia.
    + constructor; [exact H1|].
      eapply Forall_impl; [|exact Hf]. intros b Hb. cbv beta in Hb.
      unfold m_end in Hb. lia.
Qed.

(** The matches of one pattern come left to right without overlap, and
    each reports the piece of the text it covers. *)
Lemma finditer_in_order (icase : bool) (r : regex) (text : string) :
  StronglySorted left_of (finditer icase r text)
  /\ Forall (fun m => m_text m = slice (m_start m) (m_end m) text)
            (finditer icase r text).
Proof.
  unfold finditer.
  destruct (scan_in_order icase r text (S (String.length text)) 0 text eq_refl)
    as [Ho Hf].
  split; [|exact Hf]. now apply spans_sorted in Ho.
Qed.

(** ** The extractors *)

Lemma fold_left_extend {A B : Type} (f : A -> list B) (l : list A)
  (acc : list B) :
  fold_left (fun acc x => (acc ++ f x)%list) l acc
  = (acc ++ List.concat (map f l))%list.
Proof.
  revert acc. induction l as [|a l IH]; intros acc; simpl.
  - now rewrite app_nil_r.
  - rewrite IH. now rewrite app_assoc.
Qed.

Lemma amount_step_app (text currency mtch : string) (amounts : list value) :
  amount_step text currency amounts mtch
  = (amounts ++ amount_candidate text currency mtch)%list.
Proof.
  unfold amount_candidate, amount_step.
  destruct (py_float _); simpl; [reflexivity|now rewrite app_nil_r].
Qed.

Lemma amount_fold (text currency : string) (ms : list string)
  (amounts : list value) :
  fold_left (amount_step text currency) ms amounts
  = (amounts ++ flat_map (amount_candidate text currency) ms)%list.
Proof.
  revert amounts. induction ms as [|m ms IH]; intros amounts; simpl.
  - now rewrite app_nil_r.
  - rewrite IH, amount_step_app. now rewrite app_assoc.
Qed.

Lemma extract_amounts_concat (text : string) :
  extract_amounts text
  = List.concat (map (fun pc => flat_map (amount_candidate text (snd pc))
                             (findall_group true (fst pc) text))
                amount_patterns).
Proof.
  unfold extract_amounts. generalize amount_patterns. intros ps.
  rewrite <- (app_nil_l (List.concat _)). generalize (@nil value).
  induction ps as [|[p c] ps IH]; intros acc; simpl.
  - now rewrite app_nil_r.
  - rewrite IH, amount_fold. now rewrite app_assoc.
Qed.

(** C5, as the code has it: every extractor returns its candidates grouped
    by pattern, in the order the patterns are declared; within one pattern
    they come left to right in the text, without overlap; nothing is
    deduplicated. *)
Theorem extractors_grouped_by_pattern :
  (forall text,
     extract_dates text
     = List.concat (map (fun p => findall true p text) date_patterns)
     /\ extract_times text
        = List.concat (map (fun p => findall true p text) time_patterns)
     /\ extract_phone_numbers text
        = List.concat (map (fun p => findall false p text) phone_patterns)
     /\ extract_amounts text
        = List.concat (map (fun pc => flat_map (amount_candidate text (snd pc))
                                   (findall_group true (fst pc) text))
                      amount_patterns))
  /\ (forall icase r text,
        StronglySorted left_of (finditer icase r text)
        /\ Forall (fun m => m_text m = slice (m_start m) (m_end m) text)
                  (finditer icase r text))
  /\ extract_times "at 5 pm, again 5 pm" = ["5 pm"; "5 pm"]
  /\ extract_phone_numbers "+91 9876543210"
     = ["9876543210"; "+91 9876543210"].
Proof.
  split; [|split; [apply finditer_in_order|split; reflexivity]].
  intros text. unfold extract_dates, extract_times, extract_phone_numbers.
  rewrite !fold_left_extend. simpl app.
  repeat split. apply extract_amounts_concat.
Qed.

(** C5, as the specification words it, fails: "around 5" stands first in
    the text but comes last in the result, after the match of an earlier
    pattern. *)
Lemma extractors_order_counterexample :
  extract_times "around 5 then 6 pm" = ["6 pm"; "around 5"]
  /\ map (fun c => str_find c "around 5 then 6 pm")
         (extract_times "around 5 then 6 pm") = [Some 14; Some 0]
  /\ ordered_by_first_match "around 5 then 6 pm"
       (extract_times "around 5 then 6 pm") = false.
Proof. repeat split. Qed.

(** C4, on the code: "Rs. 50,000" gives the single candidate 50000 INR
    and "Rs. 2 lakh" gives 200000; but "2 lakh rupees" matches neither
    pattern and gives no candidate at all, and in "Rs. 5 lakh, then Rs. 5"
    the second amount is multiplied as well, its window being taken at the
    first "5" of the text. *)
Theorem extract_amounts_lakh_examples :
  extract_amounts "Rs. 50,000"
  = [VDict [("amount", VFloat (float_of_Z 50000)); ("currency", VStr "INR")]]
  /\ extract_amounts "Rs. 2 lakh"
     = [VDict [("amount", VFloat (float_of_Z 200000));
               ("currency", VStr "INR")]]
  /\ extract_amounts "2 lakh rupees" = []
  /\ extract_amounts "Rs. 5 lakh, then Rs. 5"
     = [VDict [("amount", VFloat (float_of_Z 500000));
               ("currency", VStr "INR")];
        VDict [("amount", VFloat (float_of_Z 500000));
               ("currency", VStr "INR")]].
Proof. repeat split. Qed.

(** ** The submit loop of the missing-fields form *)

Lemma get_keys_none (q : list string) : get_keys VNone q = VNone.
Proof. destruct q; reflexivity. Qed.

Lemma get_keys_app (p r : list string) :
  forall t, get_keys t (p ++ r) = get_keys (get_keys t p) r.
Proof.
  induction p as [|k p IH]; intros t; simpl; [reflexivity|].
  destruct t; try (now rewrite get_keys_none). apply IH.
Qed.

(** Nothing is found below a value that is falsy or not a dict. *)
Lemma get_keys_below_leaf (x : value) (r : list string) :
  py_truthy x = false \/ is_dict x = false -> r <> [] ->
  get_keys x r = VNone.
Proof.
  intros Hx Hr. destruct r as [|k r]; [congruence|].
  destruct x as [| | | | | |entries]; try reflexivity.
  destruct Hx as [Hx|Hx]; [|discriminate Hx].
  destruct entries; [|discriminate Hx]. simpl. apply get_keys_none.
Qed.

Lemma missing_is_leaf (x : value) :
  field_is_missing x = true -> py_truthy x = false \/ is_dict x = false.
Proof.
  unfold field_is_missing. destruct x; simpl; auto.
  destruct entries; simpl; auto; discriminate.
Qed.

Lemma is_prefix_app (p q : list string) :
  is_prefix p q = true -> exists r, q = (p ++ r)%list.
Proof.
  revert q. induction p as [|a p IH]; intros q H; simpl in *; [eauto|].
  destruct q as [|b q]; [discriminate|].
  apply andb_true_iff in H as [Hab H]. apply String.eqb_eq in Hab. subst b.
  destruct (IH _ H) as [r ->]. eauto.
Qed.

Lemma is_prefix_refl (p : list string) : is_prefix p p = true.
Proof. induction p; simpl; [reflexivity|]. now rewrite String.eqb_refl. Qed.

Lemma is_prefix_app_r (p r : list string) : is_prefix p (p ++ r) = true.
Proof. induction p; simpl; [reflexivity|]. now rewrite String.eqb_refl. Qed.

Lemma apart_sym (p q : list string) : apart p q = apart q p.
Proof. unfold apart. apply andb_comm. Qed.

(** Setting along [p] leaves every path apart from [p] as it was. *)
Lemma set_keys_frame (p : list string) :
  p <> [] ->
  forall (tree tree' v : value) (q : list string),
    set_keys tree p v = Ok tree' -> apart p q = true ->
    get_keys tree' q = get_keys tree q.
Proof.
  induction p as [|k rest IH]; [congruence|]. intros _ tree tree' v q H Hq.
  destruct (is_dict tree) eqn:Hd.
  2:{ rewrite set_keys_not_dict in H; [discriminate|assumption|discriminate]. }
  destruct tree as [| | | | | |d]; try discriminate Hd.
  unfold apart in Hq. apply andb_true_iff in Hq as [Hpq Hqp].
  destruct q as [|k' q]; [discriminate Hqp|].
  apply negb_true_iff in Hpq, Hqp. cbn [is_prefix] in Hpq, Hqp.
  destruct rest as [|k2 rest].
  - simpl in H. injection H as <-. cbn [get_keys].
    destruct (String.eqb k k') eqn:E; [discriminate Hpq|].
    apply String.eqb_neq in E. now rewrite dict_get_set_other.
  - rewrite set_keys_step in H. unfold py_getitem in H.
    destruct (dict_get k (ensure_key k d)) as [child|] eqn:Hc;
      cbn [bind] in H; [|discriminate H].
    destruct (set_keys child (k2 :: rest) v) as [child'|e] eqn:Hs;
      cbn [bind] in H; [|discriminate H].
    injection H as <-. cbn [get_keys].
    destruct (String.eqb k k') eqn:E.
    + apply String.eqb_eq in E. subst k'.
      rewrite String.eqb_refl in Hqp. cbn [andb] in Hpq, Hqp.
      rewrite dict_get_set_same.
      assert (Ha : apart (k2 :: rest) q = true)
        by (unfold apart; now rewrite Hpq, Hqp).
      rewrite (IH ltac:(discriminate) child child' v q Hs Ha).
      unfold ensure_key in Hc. destruct (dict_mem k d) eqn:Hm.
      * now rewrite Hc.
      * rewrite dict_get_set_same in Hc. injection Hc as <-.
        unfold dict_mem in Hm. destruct (dict_get k d); [discriminate Hm|].
        rewrite get_keys_none. apply get_keys_below_leaf; [now left|].
        intros ->. discriminate Hqp.
    + apply String.eqb_neq in E. rewrite dict_get_set_other by assumption.
      unfold ensure_key. destruct (dict_mem k d); [reflexivity|].
      now rewrite dict_get_set_other.
Qed.

(** Setting a string over a missing field leaves every path that is not
    an initial part of the field's path as it was. *)
Lemma set_missing_frame (data data' : value) (path s : string)
  (q : list string) :
  set_nested_value data path (VStr s) = Ok data' ->
  field_is_missing (get_nested_value data path) = true ->
  is_prefix q (split_on dot path) = false ->
  get_keys data' q = get_keys data q.
Proof.
  unfold set_nested_value, get_nested_value. intros Hs Hm Hq.
  pose proof (split_on_nonempty dot path) as Hne.
  destruct (is_prefix (split_on dot path) q) eqn:Hp.
  - destruct (is_prefix_app _ _ Hp) as [r ->].
    assert (Hr : r <> []).
    { intros ->. rewrite app_nil_r, is_prefix_refl in Hq. discriminate. }
    rewrite !get_keys_app.
    rewrite (set_keys_get_keys _ Hne _ _ _ Hs).
    rewrite (get_keys_below_leaf (VStr s)) by (auto; now right).
    symmetry. apply get_keys_below_leaf; [|assumption].
    now apply missing_is_leaf.
  - eapply set_keys_frame; eauto. unfold apart. now rewrite Hp, Hq.
Qed.

Lemma apply_skips_empty (inputs : list (string * string)) :
  forall data,
    apply_user_inputs data inputs
    = apply_user_inputs data (filter non_empty inputs).
Proof.
  induction inputs as [|[p v] inputs IH]; intros data; simpl; [reflexivity|].
  unfold non_empty at 1. cbn [snd].
  destruct (negb (String.eqb v "")) eqn:E; simpl.
  - rewrite E. destruct (set_nested_value data p (VStr v)); simpl; auto.
  - apply IH.
Qed.

(** The loop leaves every path apart from all its inputs' paths as it
    was. *)
Lemma apply_frame_apart (inputs : list (string * string)) :
  forall (data data' : value) (q : list string),
    apply_user_inputs data inputs = Ok data' ->
    forallb (fun i => apart (keys_of i) q) inputs = true ->
    get_keys data' q = get_keys data q.
Proof.
  induction inputs as [|[p v] inputs IH]; intros data data' q H Hq;
    simpl in H.
  - now injection H as <-.
  - simpl in Hq. apply andb_true_iff in Hq as [Hp Hq].
    destruct (negb (String.eqb v "")); [|eauto].
    destruct (set_nested_value data p (VStr v)) as [data1|e] eqn:Hs;
      cbn [bind] in H; [|discriminate H].
    rewrite (IH _ _ _ H Hq).
    eapply set_keys_frame; eauto using split_on_nonempty.
Qed.

Lemma non_empty_iff (p v : string) : non_empty (p, v) = true <-> v <> "".
Proof.
  unfold non_empty. cbn [snd]. rewrite negb_true_iff. apply String.eqb_neq.
Qed.

(** The loop, run on missing fields with paths pairwise apart, leaves
    every path that is not an initial part of an applied path as it was. *)
Lemma apply_frame (inputs : list (string * string)) :
  forall (data data' : value) (q : list string),
    apply_user_inputs data inputs = Ok data' ->
    pairwise_apart (map keys_of inputs) = true ->
    forallb (fun i => field_is_missing (get_nested_value data (fst i))) inputs
    = true ->
    forallb (fun i => negb (non_empty i && is_prefix q (keys_of i))) inputs
    = true ->
    get_keys data' q = get_keys data q.
Proof.
  induction inputs as [|[p v] inputs IH]; intros data data' q H Hpw Hm Hq;
    simpl in H.
  - now injection H as <-.
  - simpl in Hpw, Hm, Hq.
    apply andb_true_iff in Hpw as [Hp Hpw].
    apply andb_true_iff in Hm as [Hmp Hm].
    apply andb_true_iff in Hq as [Hqp Hq].
    unfold non_empty in Hqp. cbn [snd] in Hqp.
    destruct (negb (String.eqb v "")); [|eauto].
    destruct (set_nested_value data p (VStr v)) as [data1|e] eqn:Hs;
      cbn [bind] in H; [|discriminate H].
    cbn [andb] in Hqp. apply negb_true_iff in Hqp.
    rewrite (IH data1 data' q H Hpw); [| |exact Hq].
    + eapply set_missing_frame; eauto.
    + rewrite forallb_forall in *. intros i Hi.
      rewrite <- (Hm i Hi). f_equal. unfold get_nested_value.
      eapply set_keys_frame; eauto using split_on_nonempty.
      apply (Hp (keys_of i)). now apply in_map.
Qed.

(** After the loop every non-empty input is found at its path. *)
Lemma apply_sets (inputs : list (string * string)) :
  forall (data data' : value),
    apply_user_inputs data inputs = Ok data' ->
    pairwise_apart (map keys_of inputs) = true ->
    forall p v, In (p, v) inputs -> v <> "" ->
                get_nested_value data' p = VStr v.
Proof.
  induction inputs as [|[p0 v0] inputs IH]; intros data data' H Hpw p v Hin Hv;
    [destruct Hin|].
  simpl in H, Hpw. apply andb_true_iff in Hpw as [Hp Hpw].
  destruct Hin as [Heq|Hin].
  - injection Heq as -> ->.
    apply String.eqb_neq in Hv. rewrite Hv in H. cbn [negb] in H.
    destruct (set_nested_value data p (VStr v)) as [data1|e] eqn:Hs;
      cbn [bind] in H; [|discriminate H].
    unfold get_nested_value.
    rewrite (apply_frame_apart inputs data1 data' _ H).
    + eapply set_keys_get_keys; eauto using split_on_nonempty.
    + rewrite forallb_forall in *. intros i Hi. rewrite apart_sym.
      apply (Hp (keys_of i)). now apply in_map.
  - destruct (negb (String.eqb v0 "")); [|eauto].
    destruct (set_nested_value data p0 (VStr v0)) as [data1|e] eqn:Hs;
      cbn [bind] in H; [|discriminate H].
    eauto.
Qed.

Lemma pairwise_apart_in (inputs : list (string * string)) (i j : string * string) :
  pairwise_apart (map keys_of inputs) = true ->
  In i inputs -> In j inputs -> i <> j ->
  apart (keys_of i) (keys_of j) = true.
Proof.
  induction inputs as [|a inputs IH]; intros Hpw Hi Hj Hne; [destruct Hi|].
  simpl in Hpw. apply andb_true_iff in Hpw as [Ha Hpw].
  rewrite forallb_forall in Ha.
  destruct Hi as [<-|Hi], Hj as [<-|Hj].
  - congruence.
  - apply Ha. now apply in_map.
  - rewrite apart_sym. apply Ha. now apply in_map.
  - now apply IH.
Qed.

Lemma sublist_in {A : Type} (l1 l2 : list A) (x : A) :
  sublist l1 l2 -> In x l1 -> In x l2.
Proof.
  induction 1 as [|y l1 l2 H IH|y l1 l2 H IH]; simpl; auto.
  intros [<-|Hx]; auto.
Qed.

Lemma sublist_map {A B : Type} (f : A -> B) (l1 l2 : list A) :
  sublist l1 l2 -> sublist (map f l1) (map f l2).
Proof. induction 1; simpl; now constructor. Qed.

Lemma sublist_nodup {A : Type} (l1 l2 : list A) :
  sublist l1 l2 -> NoDup l2 -> NoDup l1.
Proof.
  induction 1 as [|y l1 l2 H IH|y l1 l2 H IH]; intros Hnd.
  - constructor.
  - inversion Hnd; auto.
  - inversion Hnd as [|? ? Hy Hnd']; subst. constructor; [|auto].
    intro Hin. apply Hy. eapply sublist_in; eauto.
Qed.

Lemma sublist_pairwise_apart (l1 l2 : list (list string)) :
  sublist l1 l2 -> pairwise_apart l2 = true -> pairwise_apart l1 = true.
Proof.
  induction 1 as [|y l1 l2 H IH|y l1 l2 H IH]; simpl; intros Hp.
  - reflexivity.
  - apply andb_true_iff in Hp as [_ Hp]. auto.
  - apply andb_true_iff in Hp as [Hy Hp]. apply andb_true_iff. split; [|auto].
    rewrite forallb_forall in *. intros x Hx. apply Hy.
    eapply sublist_in; eauto.
Qed.

Lemma form_step_sets (w : widgets) (user_inputs : list (string * string))
  (field : string * string) :
  form_step w user_inputs field
  = label_set (fst field) (widget_value w field) user_inputs.
Proof.
  destruct field as [p l]. unfold form_step, widget_value. cbn [fst snd].
  destruct (str_contains "date" (lower p) || str_contains "occurred_on" p);
    [reflexivity|].
  destruct (str_contains "type" p && str_contains "offense" p); reflexivity.
Qed.

Lemma form_fold (w : widgets) (missing acc : list (string * string)) :
  NoDup (map fst acc ++ map fst missing) ->
  fold_left (form_step w) missing acc
  = (acc ++ map (fun f => (fst f, widget_value w f)) missing)%list.
Proof.
  revert acc. induction missing as [|f missing IH]; intros acc Hnd; simpl.
  - now rewrite app_nil_r.
  - rewrite form_step_sets.
    assert (Hp : ~ In (fst f) (map fst acc)).
    { intro Hin. apply NoDup_remove_2 in Hnd. apply Hnd.
      apply in_or_app. now left. }
    rewrite label_set_fresh by assumption. rewrite IH.
    + now rewrite <- app_assoc.
    + rewrite map_app, <- app_assoc. exact Hnd.
Qed.

(** The form asks for exactly the missing fields, in their order. *)
Lemma form_user_inputs_map (w : widgets) (data : value) :
  form_user_inputs w (validate_mandatory_fields data)
  = map (fun f => (fst f, widget_value w f))
        (filter (missing_entry data) MANDATORY_FIELDS).
Proof.
  unfold form_user_inputs. rewrite validate_is_filter.
  rewrite form_fold; [reflexivity|].
  change (NoDup (map fst (filter (missing_entry data) MANDATORY_FIELDS))).
  eapply sublist_nodup; [|exact mandatory_paths_nodup].
  apply sublist_map, filter_sublist.
Qed.

Lemma mandatory_paths_apart :
  pairwise_apart (map (fun f => split_on dot (fst f)) MANDATORY_FIELDS) = true.
Proof. reflexivity. Qed.

Lemma form_inputs_apart (w : widgets) (data : value) :
  pairwise_apart
    (map keys_of (form_user_inputs w (validate_mandatory_fields data))) = true.
Proof.
  rewrite form_user_inputs_map, map_map. unfold keys_of. cbn [fst].
  eapply sublist_pairwise_apart; [|exact mandatory_paths_apart].
  apply sublist_map, filter_sublist.
Qed.

Lemma form_inputs_missing (w : widgets) (data : value) :
  forallb (fun i => field_is_missing (get_nested_value data (fst i)))
          (form_user_inputs w (validate_mandatory_fields data)) = true.
Proof.
  rewrite form_user_inputs_map, forallb_map. cbn [fst].
  apply forallb_forall. intros f Hf. apply filter_In in Hf as [_ Hf].
  exact Hf.
Qed.

(** C7, as the code has it: whenever the submit handler returns, (1) the
    inputs left empty took no part in it; (2) every non-empty input is
    found at its field path; (3) the value at the path of an input left
    empty is what it was; (4) every path that is not an initial part of the
    path of a non-empty input holds what it held; (5) no path that held a
    truthy value holds a falsy one afterwards. *)
Theorem submit_missing_information_spec (w : widgets) (data data' : value) :
  submit_missing_information w data = Ok data' ->
  let user_inputs := form_user_inputs w (validate_mandatory_fields data) in
  apply_user_inputs data user_inputs
  = apply_user_inputs data (filter non_empty user_inputs)
  /\ (forall path v, In (path, v) user_inputs -> v <> "" ->
        get_nested_value data' path = VStr v)
  /\ (forall path, In (path, "") user_inputs ->
        get_nested_value data' path = get_nested_value data path)
  /\ (forall q,
        (forall path v, In (path, v) user_inputs -> v <> "" ->
           is_prefix q (split_on dot path) = false) ->
        get_keys data' q = get_keys data q)
  /\ (forall q, py_truthy (get_keys data q) = true ->
                py_truthy (get_keys data' q) = true).
Proof.
  unfold submit_missing_information. cbv zeta. intros H.
  pose proof (form_inputs_apart w data) as Hpw.
  pose proof (form_inputs_missing w data) as Hm.
  set (user_inputs := form_user_inputs w (validate_mandatory_fields data)) in *.
  assert (Hset : forall path v, In (path, v) user_inputs -> v <> "" ->
                   get_nested_value data' path = VStr v)
    by (eapply apply_sets; eauto).
  assert (Hframe : forall q,
             (forall path v, In (path, v) user_inputs -> v <> "" ->
                is_prefix q (split_on dot path) = false) ->
             get_keys data' q = get_keys data q).
  { intros q Hq. eapply apply_frame; eauto.
    apply forallb_forall. intros [p v] Hi.
    destruct (non_empty (p, v)) eqn:Hv; [|reflexivity].
    apply non_empty_iff in Hv. unfold keys_of. cbn [fst andb].
    now rewrite (Hq p v Hi Hv). }
  split; [apply apply_skips_empty|]. split; [exact Hset|]. split; [|split].
  - intros path Hin. apply Hframe. intros p v Hi Hv.
    assert (Ha : apart (keys_of (path, "")) (keys_of (p, v)) = true).
    { apply (pairwise_apart_in user_inputs); auto. congruence. }
    unfold apart, keys_of in Ha. cbn [fst] in Ha.
    apply andb_true_iff in Ha as [Ha _]. now apply negb_true_iff in Ha.
  - exact Hframe.
  - intros q Hq.
    destruct (existsb (fun i => non_empty i && is_prefix q (keys_of i))
                user_inputs) eqn:E.
    + apply existsb_exists in E as [[p v] [Hi E]].
      apply andb_true_iff in E as [Hv Hp]. apply non_empty_iff in Hv.
      unfold keys_of in Hp. cbn [fst] in Hp.
      destruct (is_prefix_app _ _ Hp) as [r Hr].
      pose proof (Hset p v Hi Hv) as Hg. unfold get_nested_value in Hg.
      rewrite Hr, get_keys_app in Hg.
      destruct (py_truthy (get_keys data' q)) eqn:Ht; [reflexivity|].
      destruct r as [|k r].
      * simpl in Hg. rewrite Hg in Ht. simpl in Ht.
        apply String.eqb_neq in Hv. rewrite Hv in Ht. discriminate Ht.
      * rewrite get_keys_below_leaf in Hg; [discriminate Hg|now left|].
        discriminate.
    + rewrite Hframe; [exact Hq|]. intros p v Hi Hv.
      assert (En : forall i, In i user_inputs ->
                     non_empty i && is_prefix q (keys_of i) = false).
      { intros i Hin. destruct (non_empty i && is_prefix q (keys_of i)) eqn:Ei;
          [|reflexivity].
        assert (existsb (fun i => non_empty i && is_prefix q (keys_of i))
                  user_inputs = true)
          by (apply existsb_exists; eauto).
        congruence. }
      specialize (En (p, v) Hi).
      apply (proj2 (non_empty_iff p v)) in Hv. rewrite Hv in En. exact En.
Qed.

Lemma submit_missing_information_spec_witness :
  submit_missing_information sample_widgets sample_data = Ok sample_filled
  /\ get_nested_value sample_filled "complainant.address" = VStr "45 MG Road"
  /\ get_nested_value sample_filled "complainant.phone"
     = get_nested_value sample_data "complainant.phone"
  /\ get_keys sample_filled ["complainant"; "name"]
     = get_keys sample_data ["complainant"; "name"].
Proof.
  split; [reflexivity|].
  destruct (submit_missing_information_spec sample_widgets sample_data
              sample_filled eq_refl) as [_ [Hset [Hskip [Hframe _]]]].
  split; [|split].
  - apply Hset; [|discriminate]. vm_compute. tauto.
  - apply Hskip. vm_compute. tauto.
  - apply Hframe. intros path v Hin _. vm_compute in Hin.
    destruct Hin as [Hin|[Hin|[Hin|[Hin|[]]]]];
      injection Hin as <- _; reflexivity.
Defined.

(** C7, as the specification words it, fails: when the extracted data holds
    a string where the complainant record should be, the name is reported
    missing, the user types it, and the handler raises instead of setting
    it. *)
Lemma submit_missing_information_counterexample :
  let data := VDict [("complainant", VStr "Rajesh Kumar")] in
  let w := mkWidgets (fun _ => mkDate 2025 1 15) (fun _ => 0)
                     (fun _ => "Rajesh Kumar") in
  In ("complainant.name", "Rajesh Kumar")
     (form_user_inputs w (validate_mandatory_fields data))
  /\ submit_missing_information w data = Raise TypeError.
Proof.
  split; [vm_compute; tauto|reflexivity].
Qed.

(** * Further properties of the code *)

(** ** Nested paths *)

Lemma set_keys_raises_type_error (keys : list string) :
  forall (tree v : value) (e : exn),
    set_keys tree keys v = Raise e -> e = TypeError.
Proof.
  induction keys as [|k rest IH]; intros tree v e H; [discriminate H|].
  destruct (is_dict tree) eqn:Hd.
  2:{ rewrite set_keys_not_dict in H; [congruence|assumption|discriminate]. }
  destruct tree as [| | | | | |d]; try discriminate Hd.
  destruct rest as [|k2 rest]; [discriminate H|].
  rewrite set_keys_step in H. unfold py_getitem in H.
  assert (Hk : exists child, dict_get k (ensure_key k d) = Some child).
  { unfold ensure_key. destruct (dict_mem k d) eqn:Hm.
    - now apply dict_mem_get.
    - rewrite dict_get_set_same. eauto. }
  destruct Hk as [child Hk]. rewrite Hk in H. cbn [bind] in H.
  destruct (set_keys child (k2 :: rest) v) as [child'|e'] eqn:Hs;
    cbn [bind] in H; [discriminate H|].
  injection H as <-. eauto.
Qed.

(** X1: [set_nested_value] returns exactly when the tree is a dict and the
    walk is not blocked by a non-dict under an intermediate key; when it
    does not return, the exception is [TypeError]. *)
Theorem set_nested_value_returns_iff (tree : value) (path : string)
  (v : value) :
  ((exists tree', set_nested_value tree path v = Ok tree')
   <-> is_dict tree = true /\ ~ blocked tree (split_on dot path))
  /\ (forall e, set_nested_value tree path v = Raise e -> e = TypeError).
Proof.
  unfold set_nested_value.
  pose proof (split_on_nonempty dot path) as Hne. split; [split|].
  - intros [tree' H]. split.
    + destruct (is_dict tree) eqn:Hd; [reflexivity|].
      rewrite set_keys_not_dict in H by assumption. discriminate H.
    + intros Hb. rewrite (blocked_raises _ _ v Hb) in H. discriminate H.
  - intros [Hd Hnb]. destruct tree as [| | | | | |d]; try discriminate Hd.
    now apply not_blocked_succeeds.
  - apply set_keys_raises_type_error.
Qed.

Lemma set_nested_value_returns_iff_witness :
  exists tree',
    set_nested_value (VDict [("a", VDict [])]) "a.b.c" (VInt 1) = Ok tree'.
Proof.
  apply (proj1 (set_nested_value_returns_iff
                  (VDict [("a", VDict [])]) "a.b.c" (VInt 1))).
  split; [reflexivity|].
  intros Hb. vm_compute in Hb.
  inversion Hb as [d k rest x Hg Hx Hr|d k rest x Hg Hb']; subst.
  - simpl in Hg. injection Hg as <-. discriminate Hx.
  - simpl in Hg. injection Hg as <-.
    inversion Hb' as [d k rest x Hg Hx Hr|d k rest x Hg Hb'']; subst;
      discriminate Hg.
Defined.

(** X2: setting a path leaves the value read at every path that is apart
    from it (neither an initial part of the other) unchanged. *)
Theorem set_nested_value_frame (tree tree' : value) (path other : string)
  (v : value) :
  set_nested_value tree path v = Ok tree' ->
  apart (split_on dot path) (split_on dot other) = true ->
  get_nested_value tree' other = get_nested_value tree other.
Proof.
  unfold set_nested_value, get_nested_value. intros Hs Ha.
  eapply set_keys_frame; eauto using split_on_nonempty.
Qed.

Lemma set_nested_value_frame_witness :
  get_nested_value
    (VDict [("complainant", VDict [("name", VStr "A"); ("phone", VStr "9")])])
    "complainant.name"
  = get_nested_value (VDict [("complainant", VDict [("name", VStr "A")])])
      "complainant.name".
Proof.
  apply (set_nested_value_frame
           (VDict [("complainant", VDict [("name", VStr "A")])])
           (VDict [("complainant",
                    VDict [("name", VStr "A"); ("phone", VStr "9")])])
           "complainant.phone" "complainant.name" (VStr "9"));
    reflexivity.
Defined.

Lemma dict_set_set (k : string) (v1 v2 : value) (d : dict) :
  dict_set k v2 (dict_set k v1 d) = dict_set k v2 d.
Proof.
  induction d as [|[k' v'] d IH]; simpl.
  - now rewrite String.eqb_refl.
  - destruct (String.eqb k k') eqn:E; simpl; rewrite E; [reflexivity|].
    now rewrite IH.
Qed.

Lemma set_keys_overwrite (keys : list string) :
  forall (tree t1 v1 v2 : value),
    set_keys tree keys v1 = Ok t1 ->
    set_keys t1 keys v2 = set_keys tree keys v2.
Proof.
  induction keys as [|k rest IH]; intros tree t1 v1 v2 H.
  - simpl in *. congruence.
  - destruct (is_dict tree) eqn:Hd.
    2:{ rewrite set_keys_not_dict in H; [discriminate|assumption|discriminate]. }
    destruct tree as [| | | | | |d]; try discriminate Hd.
    destruct rest as [|k2 rest].
    + cbn [set_keys py_setitem] in *. injection H as <-.
      cbn [py_setitem]. now rewrite dict_set_set.
    + rewrite set_keys_step in H. unfold py_getitem in H.
      destruct (dict_get k (ensure_key k d)) as [child|] eqn:Hc;
        cbn [bind] in H; [|discriminate H].
      destruct (set_keys child (k2 :: rest) v1) as [child1|e] eqn:Hs;
        cbn [bind] in H; [|discriminate H].
      injection H as <-. rewrite !set_keys_step.
      assert (He : ensure_key k (dict_set k child1 (ensure_key k d))
                   = dict_set k child1 (ensure_key k d)).
      { unfold ensure_key at 1. unfold dict_mem.
        now rewrite dict_get_set_same. }
      rewrite He. unfold py_getitem. rewrite dict_get_set_same, Hc.
      cbn [bind]. rewrite (IH child child1 v1 v2 Hs).
      destruct (set_keys child (k2 :: rest) v2); cbn [bind]; [|reflexivity].
      now rewrite dict_set_set.
Qed.

(** X3: a second [set_nested_value] at the same path overwrites the first:
    the result is the one of setting the second value alone. *)
Theorem set_nested_value_overwrite (tree t1 : value) (path : string)
  (v1 v2 : value) :
  set_nested_value tree path v1 = Ok t1 ->
  set_nested_value t1 path v2 = set_nested_value tree path v2.
Proof. apply set_keys_overwrite. Qed.

Lemma set_nested_value_overwrite_witness :
  set_nested_value (VDict [("a", VDict [("b", VInt 1)])]) "a.b" (VInt 2)
  = set_nested_value (VDict []) "a.b" (VInt 2).
Proof.
  apply (set_nested_value_overwrite (VDict []) _ "a.b" (VInt 1) (VInt 2)).
  reflexivity.
Defined.

Lemma split_on_app (p q : string) :
  split_on dot (p ++ String dot q) = (split_on dot p ++ split_on dot q)%list.
Proof.
  induction p as [|c p IH]; [reflexivity|].
  cbn [append split_on]. destruct (Ascii.eqb c dot).
  - now rewrite IH.
  - rewrite IH. pose proof (split_on_nonempty dot p) as Hne.
    destruct (split_on dot p); [congruence|reflexivity].
Qed.

(** X4: reading a path made of two paths joined by a dot is reading the
    second in what the first gives; below a value that is not a dict the
    result is [None]. *)
Theorem get_nested_value_compose (data : value) (p q : string) :
  get_nested_value data (p ++ "." ++ q)
  = get_nested_value (get_nested_value data p) q
  /\ (is_dict (get_nested_value data p) = false ->
      get_nested_value data (p ++ "." ++ q) = VNone).
Proof.
  unfold get_nested_value.
  change (p ++ "." ++ q) with (p ++ String dot q).
  rewrite split_on_app, get_keys_app.
  split; [reflexivity|]. intros Hd.
  apply get_keys_below_leaf; [now right|apply split_on_nonempty].
Qed.

Lemma get_nested_value_compose_witness :
  get_nested_value (VDict [("complainant", VStr "Rajesh")])
    ("complainant" ++ "." ++ "name") = VNone.
Proof.
  apply (proj2 (get_nested_value_compose
                  (VDict [("complainant", VStr "Rajesh")])
                  "complainant" "name")).
  reflexivity.
Defined.

(** X5: when the extracted data is not a JSON object, every mandatory
    field is reported missing. *)
Theorem validate_mandatory_fields_not_dict (data : value) :
  is_dict data = false -> validate_mandatory_fields data = MANDATORY_FIELDS.
Proof.
  intros Hd. rewrite validate_is_filter. apply filter_all.
  apply forallb_forall. intros [p l] _. unfold missing_entry, get_nested_value.
  cbn [fst]. rewrite get_keys_below_leaf; auto using split_on_nonempty.
Qed.

Lemma validate_mandatory_fields_not_dict_witness :
  validate_mandatory_fields (VList [VStr "Rajesh"]) = MANDATORY_FIELDS.
Proof.
  apply (validate_mandatory_fields_not_dict (VList [VStr "Rajesh"])).
  reflexivity.
Defined.

(** ** The form and the validation after it *)

Lemma filter_filter {A : Type} (f g : A -> bool) (l : list A) :
  filter g (filter f l) = filter (fun x => f x && g x) l.
Proof.
  induction l as [|a l IH]; simpl; [reflexivity|].
  destruct (f a); simpl; [destruct (g a)|]; now rewrite IH.
Qed.

Lemma mandatory_fields_apart (f f' : string * string) :
  In f MANDATORY_FIELDS -> In f' MANDATORY_FIELDS -> f <> f' ->
  apart (keys_of f) (keys_of f') = true.
Proof.
  apply pairwise_apart_in. exact mandatory_paths_apart.
Qed.

(** A mandatory field that was present, or whose input was left empty,
    holds after the submit what it held before. *)
Lemma submit_keeps_field (w : widgets) (data data' : value)
  (f : string * string) :
  submit_missing_information w data = Ok data' ->
  In f MANDATORY_FIELDS ->
  missing_entry data f = false \/ non_empty (fst f, widget_value w f) = false ->
  get_nested_value data' (fst f) = get_nested_value data (fst f).
Proof.
  unfold submit_missing_information. cbv zeta. intros H Hf Hcase.
  unfold get_nested_value.
  eapply apply_frame; eauto using form_inputs_apart, form_inputs_missing.
  rewrite form_user_inputs_map, forallb_map.
  apply forallb_forall. intros f' Hf'. apply filter_In in Hf' as [Hin Hm'].
  unfold keys_of at 1. cbn [fst].
  destruct (non_empty (fst f', widget_value w f')) eqn:Hv; [|reflexivity].
  cbn [andb]. apply negb_true_iff.
  assert (Hne : f <> f').
  { intros ->. destruct Hcase as [Hc|Hc]; congruence. }
  pose proof (mandatory_fields_apart f f' Hf Hin Hne) as Ha.
  unfold apart, keys_of in Ha. apply andb_true_iff in Ha as [Ha _].
  now apply negb_true_iff in Ha.
Qed.

Lemma validate_after_submit (w : widgets) (data data' : value) :
  submit_missing_information w data = Ok data' ->
  validate_mandatory_fields data'
  = filter (fun f => negb (filled_in (fst f, widget_value w f)))
           (validate_mandatory_fields data).
Proof.
  intros H. rewrite (validate_is_filter data'), (validate_is_filter data).
  rewrite filter_filter. apply filter_ext_in. intros f Hf.
  unfold missing_entry at 1.
  destruct (missing_entry data f) eqn:Hm; cbn [andb].
  - destruct (non_empty (fst f, widget_value w f)) eqn:Hv.
    + assert (Hin : In (fst f, widget_value w f)
                       (form_user_inputs w (validate_mandatory_fields data))).
      { rewrite form_user_inputs_map.
        apply (in_map (fun f => (fst f, widget_value w f))).
        apply filter_In. auto. }
      pose proof Hv as Hv'. apply non_empty_iff in Hv'.
      unfold submit_missing_information in H. cbv zeta in H.
      rewrite (apply_sets _ _ _ H (form_inputs_apart w data) _ _ Hin Hv').
      unfold filled_in, non_empty in *. cbn [snd] in *. rewrite Hv.
      unfold field_is_missing. cbn [py_truthy eq_str]. rewrite Hv.
      apply negb_true_iff in Hv. rewrite Hv.
      now destruct (String.eqb (widget_value w f) "null").
    + rewrite (submit_keeps_field w data data' f H Hf) by (now right).
      unfold missing_entry in Hm. rewrite Hm.
      unfold filled_in, non_empty in *. cbn [snd] in *. now rewrite Hv.
  - rewrite (submit_keeps_field w data data' f H Hf) by (now left).
    exact Hm.
Qed.

(** X6: after a submit that returns, the mandatory fields still missing
    are exactly the missing ones whose input was left empty or was typed
    as "null", in the same order. *)
Theorem missing_after_submit (w : widgets) (data data' : value) :
  submit_missing_information w data = Ok data' ->
  validate_mandatory_fields data'
  = filter (fun f => negb (filled_in (fst f, widget_value w f)))
           (validate_mandatory_fields data).
Proof. apply validate_after_submit. Qed.

Lemma missing_after_submit_witness :
  validate_mandatory_fields sample_filled
  = filter (fun f => negb (filled_in (fst f, widget_value sample_widgets f)))
           (validate_mandatory_fields sample_data).
Proof.
  apply (missing_after_submit sample_widgets sample_data sample_filled).
  reflexivity.
Defined.

Lemma length_append (a b : string) :
  String.length (a ++ b) = String.length a + String.length b.
Proof. induction a; simpl; congruence. Qed.

Lemma zero_padded_length (width n : nat) :
  String.length (zero_padded width n) = width.
Proof.
  revert n. induction width as [|w IH]; intros n; simpl; [reflexivity|].
  rewrite length_append, IH. simpl. lia.
Qed.

Lemma strftime_ymd_length (d : date) : 6 <= String.length (strftime_ymd d).
Proof.
  unfold strftime_ymd. rewrite !length_append, !zero_padded_length.
  simpl. lia.
Qed.

Lemma offense_type_filled (i : nat) :
  filled_in ("", nth i offense_types "theft") = true.
Proof. do 10 (destruct i as [|i]; [reflexivity|]). reflexivity. Qed.

(** What the form hands back is filled in as soon as the typed texts
    are. *)
Lemma widget_value_filled (w : widgets) (f : string * string) :
  (forall label, filled_in ("", text_input w label) = true) ->
  filled_in (fst f, widget_value w f) = true.
Proof.
  intros Ht. unfold widget_value.
  destruct (str_contains "date" (lower (fst f))
            || str_contains "occurred_on" (fst f)).
  - unfold filled_in. cbn [snd].
    pose proof (strftime_ymd_length (date_input w (snd f ++ " *"))) as Hl.
    destruct (strftime_ymd (date_input w (snd f ++ " *"))) as [|c s] eqn:E;
      [simpl in Hl; lia|].
    destruct (String.eqb (String c s) "null") eqn:En; [|reflexivity].
    apply String.eqb_eq in En. rewrite En in Hl. simpl in Hl. lia.
  - destruct (str_contains "type" (fst f) && str_contains "offense" (fst f)).
    + apply (offense_type_filled (selectbox w (snd f ++ " *"))).
    + apply Ht.
Qed.

(** X7: when no text field of the form is left empty or filled with
    "null", a submit that returns leaves no mandatory field missing (the
    date picker and the offense-type box always give a value). *)
Theorem nothing_missing_after_full_submit (w : widgets)
  (data data' : value) :
  (forall label, filled_in ("", text_input w label) = true) ->
  submit_missing_information w data = Ok data' ->
  validate_mandatory_fields data' = [].
Proof.
  intros Ht H. rewrite (validate_after_submit w data data' H).
  apply filter_nil_iff. intros f _. apply negb_false_iff.
  now apply widget_value_filled.
Qed.

Lemma nothing_missing_after_full_submit_witness :
  validate_mandatory_fields
    (VDict [ ("complainant",
              VDict [("name", VStr "x"); ("address", VStr "x");
                     ("phone", VStr "x")]);
             ("incident",
              VDict [("location", VDict [("address", VStr "x")]);
                     ("datetime", VDict [("occurred_on", VStr "2025-01-15")])]);
             ("offense_details",
              VDict [("type", VStr "theft"); ("description", VStr "x")]) ])
  = [].
Proof.
  apply (nothing_missing_after_full_submit
           (mkWidgets (fun _ => mkDate 2025 1 15) (fun _ => 0) (fun _ => "x"))
           (VDict [])).
  - intros label. reflexivity.
  - reflexivity.
Defined.

(** ** More on remove_nulls *)

Lemma only_nulls_pruned (v : value) : only_nulls (remove_nulls v) = false.
Proof.
  destruct v as [| | | | |items|entries]; try reflexivity.
  rewrite remove_nulls_list. unfold prune_items.
  induction items as [|x items IH]; [reflexivity|]. simpl filter.
  destruct (is_none x) eqn:Hx; simpl; [exact IH|].
  now rewrite remove_nulls_none, Hx.
Qed.

Lemma no_null_lists_after_pruning (t : value) :
  no_null_list_values (remove_nulls t) = true.
Proof.
  induction t as [| | | | |items IH|entries IH] using value_nested_ind;
    try reflexivity; rewrite Forall_forall in IH.
  - rewrite remove_nulls_list. unfold prune_items.
    cbn [no_null_list_values]. rewrite forallb_map.
    apply forallb_filter_in. auto.
  - rewrite remove_nulls_dict. unfold prune_entries.
    cbn [no_null_list_values]. rewrite forallb_map.
    apply forallb_filter_in. intros [k v] Hin _. cbn [fst snd].
    rewrite only_nulls_pruned. apply (IH (k, v) Hin).
Qed.

(** X8: [remove_nulls] is stable from its second pass on: a third pass
    changes nothing. *)
Theorem remove_nulls_stable_after_two (t : value) :
  remove_nulls (remove_nulls (remove_nulls t)) = remove_nulls (remove_nulls t).
Proof.
  apply settled_fixed. apply settled_after_pruning.
  apply no_null_lists_after_pruning.
Qed.

Lemma dict_get_pruned (k : string) (d : dict) (x : value) :
  dict_get k d = Some x -> kept_in_dict x = true ->
  dict_get k (prune_entries d) = Some (remove_nulls x).
Proof.
  unfold prune_entries. induction d as [|[k' v'] d IH]; simpl; [discriminate|].
  destruct (String.eqb k k') eqn:E.
  - intros H Hk. injection H as ->. rewrite Hk. simpl. now rewrite E.
  - intros H Hk. destruct (kept_in_dict v'); simpl; [rewrite E|]; auto.
Qed.

Lemma filled_below_kept (x : value) (rest : list string) :
  filled_scalar (get_keys x rest) = true -> kept_in_dict x = true.
Proof.
  destruct x as [| | | |s|items|entries]; try reflexivity.
  - now rewrite get_keys_none.
  - destruct rest; [|discriminate]. simpl. destruct s; [discriminate|reflexivity].
  - destruct rest; discriminate.
Qed.

Lemma remove_nulls_keeps_filled (keys : list string) :
  forall t, filled_scalar (get_keys t keys) = true ->
            get_keys (remove_nulls t) keys = get_keys t keys.
Proof.
  induction keys as [|k rest IH]; intros t H.
  - simpl in *. destruct t; try reflexivity; discriminate H.
  - destruct t as [| | | | | |d]; try discriminate H.
    rewrite remove_nulls_dict. cbn [get_keys] in *.
    destruct (dict_get k d) as [x|] eqn:Hg.
    + rewrite (dict_get_pruned k d x Hg (filled_below_kept x rest H)).
      now apply IH.
    + rewrite get_keys_none in H. discriminate H.
Qed.

(** X9: a field that holds a boolean, a number or a non-empty string is
    read unchanged, at the same path, in the pruned tree. *)
Theorem remove_nulls_keeps_filled_fields (t : value) (path : string) :
  filled_scalar (get_nested_value t path) = true ->
  get_nested_value (remove_nulls t) path = get_nested_value t path.
Proof. apply remove_nulls_keeps_filled. Qed.

Lemma remove_nulls_keeps_filled_fields_witness :
  get_nested_value
    (remove_nulls (VDict [("a", VNone);
                          ("b", VDict [("c", VStr "x"); ("d", VStr "")])]))
    "b.c" = VStr "x".
Proof.
  apply (remove_nulls_keeps_filled_fields
           (VDict [("a", VNone);
                   ("b", VDict [("c", VStr "x"); ("d", VStr "")])]) "b.c").
  reflexivity.
Defined.

(** X10: the keys of a pruned dict are keys of the original, in their
    original order: pruning adds no key and moves none. *)
Theorem remove_nulls_keys_in_order (t : value) :
  sublist (dict_keys (remove_nulls t)) (dict_keys t).
Proof.
  destruct t as [| | | | | |d]; try apply sublist_nil.
  rewrite remove_nulls_dict. unfold dict_keys, prune_entries.
  rewrite map_map. cbn [fst]. apply sublist_map, filter_sublist.
Qed.

(** ** Dates and times *)

(** A repeated class takes exactly [n] characters of the class. *)
Lemma rmatch_times_class (icase : bool) (R : Type) (p : ascii -> bool)
  (n : nat) :
  forall (s : string) (cs : captures) (k : string -> captures -> option R),
    rmatch icase R (Times n (Class p)) s cs k
    = if (n <=? String.length s)%nat
         && all_chars (class_matches icase p) (take n s)
      then k (drop n s) cs else None.
Proof.
  induction n as [|n IH]; intros s cs k; [reflexivity|].
  destruct s as [|ch s]; [reflexivity|].
  cbn [Times rmatch]. rewrite IH. cbn [String.length take drop all_chars].
  change (S n <=? S (String.length s))%nat with (n <=? String.length s)%nat.
  destruct (class_matches icase p ch); cbn [andb].
  - reflexivity.
  - now rewrite andb_false_r.
Qed.

Lemma take_app_length (a b : string) : take (String.length a) (a ++ b) = a.
Proof. induction a; simpl; congruence. Qed.

Lemma drop_app_length (a b : string) : drop (String.length a) (a ++ b) = b.
Proof. induction a; simpl; [now destruct b|assumption]. Qed.

Lemma digit_char_is_digit (n : nat) : is_digit (digit_char n) = true.
Proof.
  unfold digit_char. pose proof (Nat.mod_upper_bound n 10 ltac:(lia)) as H.
  remember (n mod 10) as r eqn:Er. clear Er.
  do 10 (destruct r as [|r]; [reflexivity|]). lia.
Qed.

Lemma all_chars_app (p : ascii -> bool) (a b : string) :
  all_chars p (a ++ b) = all_chars p a && all_chars p b.
Proof.
  induction a as [|c a IH]; simpl; [reflexivity|].
  now rewrite IH, andb_assoc.
Qed.

Lemma zero_padded_digits (width n : nat) :
  all_chars is_digit (zero_padded width n) = true.
Proof.
  revert n. induction width as [|w IH]; intros n; [reflexivity|].
  cbn [zero_padded]. rewrite all_chars_app, IH. cbn [all_chars andb].
  now rewrite digit_char_is_digit.
Qed.

Lemma all_chars_impl (p q : ascii -> bool) (s : string) :
  (forall c, p c = true -> q c = true) ->
  all_chars p s = true -> all_chars q s = true.
Proof.
  intros Hpq. induction s as [|c s IH]; simpl; [reflexivity|].
  intros H. apply andb_true_iff in H as [Hc Hs]. rewrite (Hpq c Hc). auto.
Qed.

Lemma py_int_year (y : nat) : y < 100 * 100 -> py_int (zero_padded 4 y) = y.
Proof.
  intros H.
  assert (Hall : forallb (fun y => py_int (zero_padded 4 y) =? y)%nat
                         (seq 0 (100 * 100)) = true)
    by (vm_compute; reflexivity).
  rewrite forallb_forall in Hall. apply Nat.eqb_eq. apply Hall.
  apply in_seq. lia.
Qed.

Lemma py_int_two (n : nat) : n < 100 -> py_int (zero_padded 2 n) = n.
Proof.
  intros H.
  assert (Hall : forallb (fun n => py_int (zero_padded 2 n) =? n)%nat
                         (seq 0 100) = true) by (vm_compute; reflexivity).
  rewrite forallb_forall in Hall. apply Nat.eqb_eq. apply Hall.
  apply in_seq. lia.
Qed.

Lemma strptime_regex_split :
  strptime_regex = Seq (Group 1 (Times 4 digit)) strptime_month_day.
Proof. reflexivity. Qed.

Lemma month_day_match (m d : nat) (cs : captures) :
  1 <= m <= 12 -> 1 <= d <= 31 ->
  rmatch true (string * captures) strptime_month_day
    ("-" ++ zero_padded 2 m ++ "-" ++ zero_padded 2 d) cs
    (fun s' cs' => Some (s', cs'))
  = Some ("", (3, zero_padded 2 d) :: (2, zero_padded 2 m) :: cs).
Proof.
  intros Hm Hd.
  assert (Hm' : In m (seq 1 12)) by (apply in_seq; lia).
  assert (Hd' : In d (seq 1 31)) by (apply in_seq; lia).
  clear Hm Hd. cbn [seq In] in Hm', Hd'.
  repeat (destruct Hm' as [<-|Hm']); try contradiction;
    repeat (destruct Hd' as [<-|Hd']); try contradiction; reflexivity.
Qed.

Lemma rmatch_seq_group (icase : bool) (R : Type) (i : nat) (r1 r2 : regex)
  (s : string) (cs : captures) (k : string -> captures -> option R) :
  rmatch icase R (Seq (Group i r1) r2) s cs k
  = rmatch icase R r1 s cs
      (fun s' cs' =>
         rmatch icase R r2 s'
           ((i, take (String.length s - String.length s') s) :: cs') k).
Proof. reflexivity. Qed.

Lemma class_matches_plain (icase : bool) (p : ascii -> bool) (c : ascii) :
  p c = true -> class_matches icase p c = true.
Proof. intros H. unfold class_matches. destruct icase; now rewrite H. Qed.

Lemma days_in_month_bound (y m : nat) : days_in_month y m <= 31.
Proof.
  unfold days_in_month.
  do 12 (destruct m as [|m]; [try destruct (is_leap y); lia|]). lia.
Qed.

Lemma str_of_nat_four (y : nat) :
  1000 <= y -> y < 100 * 100 -> str_of_nat y = zero_padded 4 y.
Proof.
  intros H1 H2.
  assert (Hall : forallb (fun y => String.eqb (str_of_nat y) (zero_padded 4 y))
                         (seq 1000 (100 * 100 - 1000)) = true)
    by (vm_compute; reflexivity).
  rewrite forallb_forall in Hall. apply String.eqb_eq. apply Hall.
  apply in_seq. lia.
Qed.

Lemma str_of_nat_short (y : nat) :
  y < 1000 -> String.length (str_of_nat y) < 4.
Proof.
  intros H.
  assert (Hall : forallb (fun y => String.length (str_of_nat y) <? 4)%nat
                         (seq 0 1000) = true)
    by (vm_compute; reflexivity).
  rewrite forallb_forall in Hall. apply Nat.ltb_lt. apply Hall.
  apply in_seq. lia.
Qed.

Lemma all_chars_take_hit (p : ascii -> bool) (c : ascii) (b : string) :
  p c = false ->
  forall (a : string) (n : nat),
    String.length a < n -> all_chars p (take n (a ++ String c b)) = false.
Proof.
  intros Hc. induction a as [|x a IH]; intros n Hn.
  - destruct n as [|n]; [lia|]. cbn [append take all_chars]. now rewrite Hc.
  - destruct n as [|n]; [lia|]. cbn [append take all_chars].
    rewrite IH by (simpl in Hn; lia). apply andb_false_r.
Qed.

Lemma strptime_of_strftime (d : date) :
  valid_date d -> 1000 <= year d -> strptime_ymd (strftime_ymd d) = Ok d.
Proof.
  destruct d as [y m dd]. unfold valid_date. cbn [year month day].
  intros (Hy1 & Hy2 & Hm & Hd) Hy3.
  pose proof (days_in_month_bound y m) as Hb.
  unfold strptime_ymd, strftime_ymd, match_prefix. cbn [year month day].
  rewrite str_of_nat_four by lia.
  rewrite strptime_regex_split, rmatch_seq_group.
  unfold digit at 1. rewrite rmatch_times_class.
  pose proof (zero_padded_length 4 y) as Hl.
  set (Y := zero_padded 4 y) in *.
  set (t := "-" ++ zero_padded 2 m ++ "-" ++ zero_padded 2 dd).
  assert (Ht : take 4 (Y ++ t) = Y) by (rewrite <- Hl; apply take_app_length).
  assert (Hdr : drop 4 (Y ++ t) = t) by (rewrite <- Hl; apply drop_app_length).
  rewrite Ht, Hdr, length_append, Hl.
  replace (4 + String.length t - String.length t) with 4 by lia.
  rewrite Ht.
  assert (Hdig : all_chars (class_matches true is_digit) Y = true).
  { eapply all_chars_impl; [|apply zero_padded_digits].
    apply class_matches_plain. }
  rewrite Hdig.
  replace (4 <=? 4 + String.length t)%nat with true
    by (symmetry; apply Nat.leb_le; lia).
  cbn [andb]. unfold t.
  rewrite month_day_match by lia.
  cbn [String.eqb negb group Nat.eqb]. unfold Y.
  rewrite py_int_year, !py_int_two by lia.
  unfold make_date.
  replace (1 <=? y)%nat with true by (symmetry; apply Nat.leb_le; lia).
  replace (Z.of_nat y <=? 9999)%Z with true by (symmetry; apply Z.leb_le; lia).
  replace (1 <=? m)%nat with true by (symmetry; apply Nat.leb_le; lia).
  replace (m <=? 12)%nat with true by (symmetry; apply Nat.leb_le; lia).
  replace (1 <=? dd)%nat with true by (symmetry; apply Nat.leb_le; lia).
  replace (dd <=? days_in_month y m)%nat with true
    by (symmetry; apply Nat.leb_le; lia).
  reflexivity.
Qed.

Lemma strptime_of_short_year (d : date) :
  year d < 1000 -> strptime_ymd (strftime_ymd d) = Raise ValueError.
Proof.
  intros Hy. unfold strptime_ymd, strftime_ymd, match_prefix.
  rewrite strptime_regex_split, rmatch_seq_group.
  unfold digit at 1. rewrite rmatch_times_class.
  change (str_of_nat (year d) ++ "-" ++ zero_padded 2 (month d) ++ "-"
          ++ zero_padded 2 (day d))
    with (str_of_nat (year d)
          ++ String "-" (zero_padded 2 (month d) ++ "-"
                         ++ zero_padded 2 (day d))).
  rewrite all_chars_take_hit;
    [|reflexivity|now apply str_of_nat_short].
  now rewrite andb_false_r.
Qed.

(** X11: a valid date from the year 1000 on, written as [%Y-%m-%d] the way
    the date picker of the form does, is read back by [strptime] as the
    same date; a date before the year 1000 is written with a year of fewer
    than four digits, which [strptime] refuses with [ValueError]. *)
Theorem strptime_strftime_round_trip (d : date) :
  (valid_date d -> 1000 <= year d -> strptime_ymd (strftime_ymd d) = Ok d)
  /\ (year d < 1000 -> strptime_ymd (strftime_ymd d) = Raise ValueError).
Proof.
  split; [apply strptime_of_strftime|apply strptime_of_short_year].
Qed.

Lemma strptime_strftime_round_trip_witness :
  strptime_ymd (strftime_ymd (mkDate 2024 2 29)) = Ok (mkDate 2024 2 29)
  /\ strptime_ymd (strftime_ymd (mkDate 999 1 15)) = Raise ValueError.
Proof.
  split.
  - apply (proj1 (strptime_strftime_round_trip (mkDate 2024 2 29))).
    + unfold valid_date. cbn [year month day].
      assert (E : days_in_month 2024 2 = 29) by (vm_compute; reflexivity).
      rewrite E. repeat split; lia.
    + cbn [year]. lia.
  - apply (proj2 (strptime_strftime_round_trip (mkDate 999 1 15))).
    cbn [year]. lia.
Defined.

(** X12: a valid date from the year 1000 on, written by the form's date
    picker, passes [validate_date] and is shown by
    [format_datetime_display] as day, full month name and year, with
    " at " and the time when a non-empty one is given. *)
Theorem form_date_is_valid_and_shown (d : date) (time_str : option string) :
  valid_date d -> 1000 <= year d ->
  validate_date (strftime_ymd d) = Ok true
  /\ format_datetime_display (strftime_ymd d) time_str
     = Ok (strftime_dBY d
           ++ (if time_given time_str
               then " at " ++ time_or_empty time_str else "")).
Proof.
  intros Hv Hy.
  unfold validate_date, format_datetime_display, format_datetime_try.
  rewrite (strptime_of_strftime d Hv Hy). cbn [bind]. split; [reflexivity|].
  destruct (time_given time_str); [reflexivity|]. now rewrite append_empty_r.
Qed.

Lemma form_date_is_valid_and_shown_witness :
  validate_date "2025-01-15" = Ok true
  /\ format_datetime_display "2025-01-15" (Some "20:30")
     = Ok "15 January 2025 at 20:30".
Proof.
  apply (form_date_is_valid_and_shown (mkDate 2025 1 15) (Some "20:30")).
  - unfold valid_date. cbn [year month day].
    assert (E : days_in_month 2025 1 = 31) by (vm_compute; reflexivity).
    rewrite E. repeat split; lia.
  - cbn [year]. lia.
Defined.

Lemma clock_parses_all :
  forallb (fun h => forallb (clock_parses h) (seq 0 100)) (seq 0 100) = true.
Proof. vm_compute. reflexivity. Qed.

Lemma clock_parses_each (h m : nat) :
  h < 100 -> m < 100 -> clock_parses h m = true.
Proof.
  intros Hh Hm. pose proof clock_parses_all as H.
  rewrite forallb_forall in H.
  assert (Hin : In h (seq 0 100)) by (apply in_seq; lia).
  specialize (H h Hin). rewrite forallb_forall in H.
  apply H. apply in_seq. lia.
Qed.

(** X13: on a time written [hh:mm] with two digits each, [validate_time]
    answers true exactly when the hour is below 24 and the minute below 60,
    and [strptime] then gives that hour and minute. *)
Theorem validate_time_on_clock_text (h m : nat) :
  h < 100 -> m < 100 ->
  validate_time (clock_text h m) = Ok ((h <? 24) && (m <? 60))%nat
  /\ (h < 24 -> m < 60 -> strptime_hm (clock_text h m) = Ok (h, m)).
Proof.
  intros Hh Hm. pose proof (clock_parses_each h m Hh Hm) as H.
  unfold clock_parses in H. unfold validate_time.
  destruct (strptime_hm (clock_text h m)) as [[h' m']|e].
  - apply andb_true_iff in H as [H Em]. apply andb_true_iff in H as [H Eh].
    rewrite H. apply Nat.eqb_eq in Eh, Em. subst. auto.
  - destruct e; try discriminate H. apply negb_true_iff in H. rewrite H.
    split; [reflexivity|]. intros H1 H2.
    apply Nat.ltb_lt in H1, H2. rewrite H1, H2 in H. discriminate H.
Qed.

Lemma validate_time_on_clock_text_witness :
  validate_time "20:30" = Ok true /\ validate_time "25:00" = Ok false.
Proof.
  split.
  - apply (proj1 (validate_time_on_clock_text 20 30 ltac:(lia) ltac:(lia))).
  - apply (proj1 (validate_time_on_clock_text 25 0 ltac:(lia) ltac:(lia))).
Defined.

(** ** Phone numbers *)

Lemma remove_chars_app (p : ascii -> bool) (a b : string) :
  remove_chars p (a ++ b) = remove_chars p a ++ remove_chars p b.
Proof.
  induction a as [|c a IH]; simpl; [reflexivity|].
  destruct (p c); simpl; now rewrite IH.
Qed.

Lemma remove_chars_none_left (p : ascii -> bool) (s : string) :
  all_chars (fun c => negb (p c)) (remove_chars p s) = true.
Proof.
  induction s as [|c s IH]; simpl; [reflexivity|].
  destruct (p c) eqn:E; simpl; [assumption|]. now rewrite E.
Qed.

Lemma remove_chars_fixed (p : ascii -> bool) (s : string) :
  all_chars (fun c => negb (p c)) s = true -> remove_chars p s = s.
Proof.
  induction s as [|c s IH]; simpl; [reflexivity|].
  intros H. apply andb_true_iff in H as [Hc Hs].
  apply negb_true_iff in Hc. rewrite Hc. f_equal. auto.
Qed.

Lemma remove_chars_absorb (p q : ascii -> bool) (s : string) :
  (forall c, p c = true -> q c = true) ->
  remove_chars q (remove_chars p s) = remove_chars q s.
Proof.
  intros Hpq. induction s as [|c s IH]; simpl; [reflexivity|].
  destruct (p c) eqn:E; simpl.
  - now rewrite (Hpq c E).
  - now rewrite IH.
Qed.

Lemma all_chars_drop (q : ascii -> bool) (n : nat) (s : string) :
  all_chars q s = true -> all_chars q (drop n s) = true.
Proof.
  revert s. induction n as [|n IH]; intros s H; simpl; [assumption|].
  destruct s as [|c s]; [reflexivity|].
  simpl in H. apply andb_true_iff in H as [_ H]. auto.
Qed.

Lemma drop_length (n : nat) (s : string) :
  String.length (drop n s) = String.length s - n.
Proof.
  revert s. induction n as [|n IH]; intros s; simpl; [lia|].
  destruct s; simpl; auto.
Qed.

Lemma take_all (n : nat) (s : string) : String.length s <= n -> take n s = s.
Proof.
  revert s. induction n as [|n IH]; intros s H.
  - destruct s; [reflexivity|simpl in H; lia].
  - destruct s; simpl in *; [reflexivity|]. f_equal. apply IH. lia.
Qed.

Lemma length_zero (s : string) : String.length s = 0 -> s = "".
Proof. destruct s; [reflexivity|discriminate]. Qed.

Lemma digit_not_separator (c : ascii) :
  is_digit c = true -> phone_separator c = false.
Proof.
  unfold is_digit. intros H. apply andb_true_iff in H as [H1 H2].
  apply Nat.leb_le in H1, H2. rewrite <- (ascii_nat_embedding c).
  remember (nat_of_ascii c) as n eqn:En. clear En.
  do 48 (destruct n as [|n]; [lia|]).
  do 10 (destruct n as [|n]; [reflexivity|]). lia.
Qed.

Lemma six_to_nine_is_digit (c : ascii) :
  in_range "6" "9" c = true -> is_digit c = true.
Proof.
  unfold in_range, is_digit. cbn [nat_of_ascii]. intros H.
  apply andb_true_iff in H as [H1 H2]. apply Nat.leb_le in H1, H2.
  apply andb_true_iff. split; apply Nat.leb_le.
  - change (nat_of_ascii "6") with 54 in H1. lia.
  - change (nat_of_ascii "9") with 57 in H2. lia.
Qed.

Lemma digits_no_separator (s : string) :
  all_chars is_digit s = true ->
  all_chars (fun c => negb (phone_separator c)) s = true.
Proof.
  apply all_chars_impl. intros c H. now rewrite digit_not_separator.
Qed.

Lemma mobile_match (R : Type) (s : string) (cs : captures)
  (k : string -> captures -> option R) :
  rmatch false R mobile_regex s cs k
  = match s with
    | String ch t =>
        if in_range "6" "9" ch && (9 <=? String.length t)%nat
           && all_chars is_digit (take 9 t)
        then k (drop 9 t) cs else None
    | EmptyString => None
    end.
Proof.
  unfold mobile_regex, six_to_nine, range, digit.
  destruct s as [|ch t]; [reflexivity|].
  cbn [rmatch]. rewrite rmatch_times_class.
  change (class_matches false (in_range "6" "9") ch) with (in_range "6" "9" ch).
  change (class_matches false is_digit) with is_digit.
  destruct (in_range "6" "9" ch); [|reflexivity].
  cbn [andb]. reflexivity.
Qed.

Lemma at_end_no_separator (s : string) :
  all_chars (fun c => negb (phone_separator c)) s = true ->
  at_end s = String.eqb s "".
Proof.
  intros H. unfold at_end. destruct (String.eqb s newline) eqn:E.
  - apply String.eqb_eq in E. subst s. discriminate H.
  - apply orb_false_r.
Qed.

Lemma validate_phone_is_mobile (phone : string) :
  validate_phone phone = is_mobile (remove_chars phone_separator phone).
Proof.
  unfold validate_phone, match_prefix. cbv zeta. rewrite mobile_match.
  pose proof (remove_chars_none_left phone_separator phone) as Hc.
  destruct (remove_chars phone_separator phone) as [|ch t]; [reflexivity|].
  cbn [all_chars] in Hc. apply andb_true_iff in Hc as [_ Hc].
  unfold is_mobile. cbn [String.length all_chars].
  destruct (in_range "6" "9" ch) eqn:Hr; cbn [andb];
    [|now rewrite andb_false_r].
  rewrite (six_to_nine_is_digit ch Hr), andb_true_r. cbn [andb].
  change (S (String.length t) =? 10)%nat with (String.length t =? 9)%nat.
  pose proof (drop_length 9 t) as Hd.
  destruct (Nat.lt_trichotomy (String.length t) 9) as [Hlt|[Heq|Hgt]].
  - replace (9 <=? String.length t)%nat with false
      by (symmetry; apply Nat.leb_gt; lia).
    replace (String.length t =? 9)%nat with false
      by (symmetry; apply Nat.eqb_neq; lia).
    reflexivity.
  - replace (9 <=? String.length t)%nat with true
      by (symmetry; apply Nat.leb_le; lia).
    rewrite Heq, Nat.eqb_refl. cbn [andb].
    rewrite (take_all 9 t) by lia.
    rewrite (length_zero (drop 9 t)) by lia.
    now destruct (all_chars is_digit t).
  - replace (String.length t =? 9)%nat with false
      by (symmetry; apply Nat.eqb_neq; lia).
    cbn [andb].
    destruct ((9 <=? String.length t)%nat && all_chars is_digit (take 9 t));
      [|reflexivity].
    rewrite at_end_no_separator by (now apply all_chars_drop).
    destruct (drop 9 t); [simpl in Hd; lia|reflexivity].
Qed.

(** X14: [validate_phone] holds exactly when what is left after removing
    whitespace, hyphens and parentheses is ten digits, the first of them
    from 6 to 9. *)
Theorem validate_phone_spec (phone : string) :
  validate_phone phone = is_mobile (remove_chars phone_separator phone).
Proof. apply validate_phone_is_mobile. Qed.

(** X15: a whitespace character, hyphen or parenthesis put anywhere into a
    phone number does not change the answer of [validate_phone]. *)
Theorem validate_phone_ignores_separators (a b : string) (c : ascii) :
  phone_separator c = true ->
  validate_phone (a ++ String c b) = validate_phone (a ++ b).
Proof.
  intros Hc. rewrite !validate_phone_is_mobile, !remove_chars_app.
  cbn [remove_chars]. now rewrite Hc.
Qed.

Lemma validate_phone_ignores_separators_witness :
  validate_phone "98765-43210" = validate_phone "9876543210".
Proof.
  apply (validate_phone_ignores_separators "98765" "43210" "-").
  reflexivity.
Defined.

Lemma digits_only (s : string) :
  all_chars is_digit (remove_chars (fun c => negb (is_digit c)) s) = true.
Proof.
  eapply all_chars_impl; [|apply remove_chars_none_left].
  intros c H. cbv beta in H. destruct (is_digit c); [reflexivity|discriminate H].
Qed.

Lemma clean_phone_digits (phone : string) :
  all_chars is_digit (clean_phone phone) = true
  /\ String.length (clean_phone phone) <= 10.
Proof.
  unfold clean_phone. cbv zeta. pose proof (digits_only phone) as Hd.
  destruct (10 <? String.length _)%nat eqn:E.
  - apply Nat.ltb_lt in E. split; [now apply all_chars_drop|].
    rewrite drop_length. lia.
  - apply Nat.ltb_ge in E. auto.
Qed.

Lemma clean_phone_of_digits (s : string) :
  all_chars is_digit s = true -> String.length s <= 10 -> clean_phone s = s.
Proof.
  intros Hd Hl. unfold clean_phone. cbv zeta.
  rewrite remove_chars_fixed.
  - replace (10 <? String.length s)%nat with false
      by (symmetry; apply Nat.ltb_ge; lia).
    reflexivity.
  - eapply all_chars_impl; [|exact Hd]. intros c H. now rewrite H.
Qed.

(** X16: [clean_phone] returns digits only, at most ten of them, and
    cleaning a cleaned number changes nothing. *)
Theorem clean_phone_spec (phone : string) :
  all_chars is_digit (clean_phone phone) = true
  /\ String.length (clean_phone phone) <= 10
  /\ clean_phone (clean_phone phone) = clean_phone phone.
Proof.
  destruct (clean_phone_digits phone) as [Hd Hl].
  repeat split; auto. now apply clean_phone_of_digits.
Qed.

Lemma clean_phone_last_ten (prefix number : string) :
  all_chars is_digit number = true -> String.length number = 10 ->
  clean_phone (prefix ++ number) = number.
Proof.
  intros Hd Hl. unfold clean_phone. cbv zeta. rewrite remove_chars_app.
  rewrite (remove_chars_fixed _ number)
    by (eapply all_chars_impl; [|exact Hd]; intros c H; now rewrite H).
  set (p := remove_chars (fun c => negb (is_digit c)) prefix).
  rewrite length_append, Hl.
  destruct (String.length p) as [|n] eqn:Ep.
  - apply length_zero in Ep. now rewrite Ep.
  - replace (10 <? S n + 10)%nat with true
      by (symmetry; apply Nat.ltb_lt; lia).
    replace (S n + 10 - 10) with (String.length p) by lia.
    apply drop_app_length.
Qed.

(** X17: whatever comes before them (a country code, a trunk zero,
    punctuation), the last ten digits are what [clean_phone] keeps. *)
Theorem clean_phone_keeps_last_ten (prefix number : string) :
  all_chars is_digit number = true -> String.length number = 10 ->
  clean_phone (prefix ++ number) = number.
Proof. apply clean_phone_last_ten. Qed.

Lemma clean_phone_keeps_last_ten_witness :
  clean_phone ("+91 " ++ "9876543210") = "9876543210".
Proof.
  apply (clean_phone_keeps_last_ten "+91 " "9876543210"); reflexivity.
Defined.

Lemma is_mobile_facts (s : string) :
  is_mobile s = true ->
  String.length s = 10 /\ all_chars is_digit s = true.
Proof.
  unfold is_mobile. intros H. apply andb_true_iff in H as [H _].
  apply andb_true_iff in H as [Hl Hd]. apply Nat.eqb_eq in Hl. auto.
Qed.

Lemma mobile_is_valid (s : string) :
  is_mobile s = true -> validate_phone s = true /\ clean_phone s = s.
Proof.
  intros H. destruct (is_mobile_facts s H) as [Hl Hd]. split.
  - rewrite validate_phone_is_mobile, remove_chars_fixed; [exact H|].
    now apply digits_no_separator.
  - apply clean_phone_of_digits; [assumption|lia].
Qed.

(** X18: a phone number that passes [validate_phone] is cleaned by
    [clean_phone] to its ten digits (the separators go), and the cleaned
    number passes [validate_phone] too. *)
Theorem valid_phone_cleans_to_valid (phone : string) :
  validate_phone phone = true ->
  clean_phone phone = remove_chars phone_separator phone
  /\ validate_phone (clean_phone phone) = true.
Proof.
  intros H. rewrite validate_phone_is_mobile in H.
  destruct (mobile_is_valid _ H) as [Hv Hc].
  assert (E : clean_phone phone
              = clean_phone (remove_chars phone_separator phone)).
  { unfold clean_phone. cbv zeta. rewrite remove_chars_absorb; [reflexivity|].
    intros c Hs. destruct (is_digit c) eqn:Ed; [|reflexivity].
    rewrite digit_not_separator in Hs by assumption. discriminate Hs. }
  rewrite E, Hc. auto.
Qed.

Lemma valid_phone_cleans_to_valid_witness :
  clean_phone "(98765) 432-10" = "9876543210"
  /\ validate_phone (clean_phone "(98765) 432-10") = true.
Proof.
  apply (valid_phone_cleans_to_valid "(98765) 432-10"). reflexivity.
Defined.

(** ** What the extractors return *)

Lemma starts_with_take (n : nat) (s : string) : starts_with (take n s) s = true.
Proof.
  revert s. induction n as [|n IH]; intros s; [reflexivity|].
  destruct s as [|c s]; [reflexivity|].
  cbn [take starts_with]. now rewrite Ascii.eqb_refl, IH.
Qed.

Lemma str_contains_prefix (p s : string) :
  starts_with p s = true -> str_contains p s = true.
Proof. intros H. destruct s; simpl in *; now rewrite H. Qed.

Lemma str_contains_drop (p : string) (n : nat) :
  forall s, str_contains p (drop n s) = true -> str_contains p s = true.
Proof.
  induction n as [|n IH]; intros s H; [exact H|].
  destruct s as [|c s]; [exact H|].
  cbn [drop] in H. cbn [str_contains]. rewrite (IH s H). apply orb_true_r.
Qed.

Lemma slice_is_substring (i j : nat) (text : string) :
  str_contains (slice i j text) text = true.
Proof.
  unfold slice. apply (str_contains_drop _ i).
  apply str_contains_prefix, starts_with_take.
Qed.

Lemma findall_substrings (icase : bool) (r : regex) (text c : string) :
  In c (findall icase r text) -> str_contains c text = true.
Proof.
  unfold findall. intros H. apply in_map_iff in H as [m [<- Hm]].
  destruct (finditer_in_order icase r text) as [_ Hf].
  rewrite Forall_forall in Hf. rewrite (Hf m Hm). apply slice_is_substring.
Qed.

Lemma in_extend (icase : bool) (ps : list regex) (text c : string) :
  In c (fold_left (fun acc p => (acc ++ findall icase p text)%list) ps []) ->
  exists p, In p ps /\ In c (findall icase p text).
Proof.
  rewrite fold_left_extend. simpl app. intros H.
  apply in_concat in H as [l [Hl Hc]].
  apply in_map_iff in Hl as [p [<- Hp]]. eauto.
Qed.

(** X19: every candidate returned by [extract_dates], [extract_times] and
    [extract_phone_numbers] is a piece of the text it was given. *)
Theorem extracted_candidates_are_substrings (text c : string) :
  In c (extract_dates text) \/ In c (extract_times text)
  \/ In c (extract_phone_numbers text) ->
  str_contains c text = true.
Proof.
  unfold extract_dates, extract_times, extract_phone_numbers.
  intros [H|[H|H]]; apply in_extend in H as [p [_ H]];
    eapply findall_substrings; eauto.
Qed.

Lemma extracted_candidates_are_substrings_witness :
  str_contains "8:30 PM" "at around 8:30 PM near the market" = true.
Proof.
  apply (extracted_candidates_are_substrings
           "at around 8:30 PM near the market" "8:30 PM").
  right. left. vm_compute. tauto.
Defined.

(** Every match of a scan is a match of the pattern at some place. *)
Lemma scan_found (icase : bool) (r : regex) (fuel : nat) :
  forall (pos : nat) (s : string) (m : found),
    In m (scan fuel icase r pos s) ->
    exists s0 s',
      match_prefix icase r s0 = Some (s', m_groups m)
      /\ m_text m = take (String.length s0 - String.length s') s0.
Proof.
  induction fuel as [|fuel IH]; intros pos s m H; [destruct H|].
  cbn [scan] in H. cbv zeta in H.
  assert (Hstep : In m match s with
                       | EmptyString => []
                       | String _ t => scan fuel icase r (S pos) t
                       end ->
                  exists s0 s',
                    match_prefix icase r s0 = Some (s', m_groups m)
                    /\ m_text m = take (String.length s0 - String.length s') s0).
  { destruct s; [intros []|]. apply IH. }
  destruct (match_prefix icase r s) as [[s' cs]|] eqn:E; [|auto].
  destruct H as [<-|H]; [exists s, s'; auto|].
  destruct (String.length s - String.length s'); eauto.
Qed.

Lemma mobile_found (s0 s' : string) (cs : captures) :
  match_prefix false mobile_regex s0 = Some (s', cs) ->
  is_mobile (take (String.length s0 - String.length s') s0) = true.
Proof.
  unfold match_prefix. rewrite mobile_match.
  destruct s0 as [|ch t]; [discriminate|].
  destruct (in_range "6" "9" ch) eqn:Hr; [|discriminate].
  destruct (9 <=? String.length t)%nat eqn:Hl; [|discriminate].
  destruct (all_chars is_digit (take 9 t)) eqn:Hd; [|discriminate].
  cbn [andb]. intros H.
  assert (Hs : s' = drop 9 t) by congruence. subst s'. clear H.
  apply Nat.leb_le in Hl.
  rewrite drop_length. cbn [String.length].
  replace (S (String.length t) - (String.length t - 9)) with 10 by lia.
  change (take 10 (String ch t)) with (String ch (take 9 t)).
  unfold is_mobile. cbn [String.length all_chars].
  rewrite take_length by lia. rewrite Hr, Hd, (six_to_nine_is_digit ch Hr).
  reflexivity.
Qed.

Lemma rmatch_lit (icase : bool) (R : Type) (c : ascii) (r : regex)
  (s : string) (cs : captures) (k : string -> captures -> option R) :
  rmatch icase R (Seq (Lit c) r) s cs k
  = match s with
    | String ch s' =>
        if lit_matches icase c ch then rmatch icase R r s' cs k else None
    | EmptyString => None
    end.
Proof. destruct s; reflexivity. Qed.

Lemma rmatch_opt_class (icase : bool) (R : Type) (p : ascii -> bool)
  (r : regex) (s : string) (cs : captures)
  (k : string -> captures -> option R) :
  rmatch icase R (Seq (Opt (Class p)) r) s cs k
  = match
      match s with
      | String ch s' =>
          if class_matches icase p ch then rmatch icase R r s' cs k else None
      | EmptyString => None
      end
    with
    | Some x => Some x
    | None => rmatch icase R r s cs k
    end.
Proof. destruct s; reflexivity. Qed.

Lemma rmatch_seq (icase : bool) (R : Type) (r1 r2 : regex) (s : string)
  (cs : captures) (k : string -> captures -> option R) :
  rmatch icase R (Seq r1 r2) s cs k
  = rmatch icase R r1 s cs (fun s' cs' => rmatch icase R r2 s' cs' k).
Proof. reflexivity. Qed.

Lemma prefixed_mobile_found (s0 s' : string) (cs : captures) :
  match_prefix false
    (Seq (Str "+91") (Seq (Opt dash_or_space) mobile_regex)) s0
  = Some (s', cs) ->
  exists prefix number,
    take (String.length s0 - String.length s') s0 = prefix ++ number
    /\ is_mobile number = true.
Proof.
  unfold match_prefix. cbn [Str]. rewrite rmatch_seq.
  rewrite rmatch_lit. destruct s0 as [|c1 s1]; [discriminate|].
  destruct (lit_matches false "+" c1); [|discriminate].
  rewrite rmatch_lit. destruct s1 as [|c2 s2]; [discriminate|].
  destruct (lit_matches false "9" c2); [|discriminate].
  rewrite rmatch_lit. destruct s2 as [|c3 s3]; [discriminate|].
  destruct (lit_matches false "1" c3); [|discriminate].
  cbn [rmatch]. fold mobile_regex.
  change (rmatch false (string * captures)
            (Seq (Opt dash_or_space) mobile_regex) s3 []
            (fun s' cs => Some (s', cs)) = Some (s', cs) ->
          exists prefix number,
            take (String.length
                    (String c1 (String c2 (String c3 s3)))
                  - String.length s')
              (String c1 (String c2 (String c3 s3))) = prefix ++ number
            /\ is_mobile number = true).
  unfold dash_or_space. rewrite rmatch_opt_class.
  set (k := fun (s' : string) (cs : captures) => Some (s', cs)).
  assert (Hm : forall s,
             rmatch false (string * captures) mobile_regex s [] k
             = Some (s', cs) ->
             String.length s' <= String.length s
             /\ is_mobile (take (String.length s - String.length s') s) = true).
  { intros s H. split.
    - apply suffix_length. eapply match_prefix_suffix. exact H.
    - eapply mobile_found. exact H. }
  intros H.
  destruct (match s3 with
            | EmptyString => None
            | String ch s4 =>
                if class_matches false
                     (fun c => Ascii.eqb c "-" || is_space c) ch
                then rmatch false (string * captures) mobile_regex s4 [] k
                else None
            end) as [x|] eqn:E.
  - injection H as ->. destruct s3 as [|c4 s4]; [discriminate E|].
    destruct (class_matches false _ c4); [|discriminate E].
    destruct (Hm s4 E) as [Hl Hn].
    exists (String c1 (String c2 (String c3 (String c4 EmptyString)))).
    eexists. split; [|exact Hn]. cbn [String.length].
    replace (S (S (S (S (String.length s4)))) - String.length s')
      with (S (S (S (S (String.length s4 - String.length s'))))) by lia.
    reflexivity.
  - destruct (Hm s3 H) as [Hl Hn].
    exists (String c1 (String c2 (String c3 EmptyString))).
    eexists. split; [|exact Hn]. cbn [String.length].
    replace (S (S (S (String.length s3))) - String.length s')
      with (S (S (S (String.length s3 - String.length s')))) by lia.
    reflexivity.
Qed.

(** X20: every candidate that [extract_phone_numbers] finds with its
    patterns for mobile numbers, the bare one and the one with +91, is
    turned by [clean_phone] into a number that passes [validate_phone]. *)
Theorem mobile_candidates_validate (text c : string) :
  In c (findall false (nth 0 phone_patterns Eps) text)
  \/ In c (findall false (nth 1 phone_patterns Eps) text) ->
  validate_phone (clean_phone c) = true.
Proof.
  unfold findall. intros [H|H]; apply in_map_iff in H as [m [<- Hm]];
    apply scan_found in Hm as [s0 [s' [Hp Ht]]]; rewrite Ht.
  - apply mobile_found in Hp. destruct (mobile_is_valid _ Hp) as [Hv Hc].
    now rewrite Hc.
  - apply prefixed_mobile_found in Hp as [prefix [number [-> Hn]]].
    destruct (is_mobile_facts _ Hn) as [Hl Hd].
    rewrite clean_phone_last_ten by assumption.
    now apply mobile_is_valid.
Qed.

Lemma mobile_candidates_validate_witness :
  validate_phone (clean_phone "+91-9876543210") = true.
Proof.
  apply (mobile_candidates_validate "call +91-9876543210 now"
           "+91-9876543210").
  right. vm_compute. tauto.
Defined.

Lemma amount_candidate_shape (text mtch : string) (c : value) :
  In c (amount_candidate text "INR" mtch) -> is_inr_amount c.
Proof.
  unfold amount_candidate, amount_step.
  destruct (py_float _) as [a|e]; [|intros []].
  intros [<-|[]]. eexists. reflexivity.
Qed.

(** X21: every candidate of [extract_amounts] is a dict of exactly an
    "amount", a float, and a "currency", always "INR". *)
Theorem extract_amounts_shape (text : string) :
  Forall is_inr_amount (extract_amounts text).
Proof.
  rewrite extract_amounts_concat. apply Forall_forall. intros c H.
  apply in_concat in H as [l [Hl Hc]].
  apply in_map_iff in Hl as [[p cur] [<- Hp]]. cbn [fst snd] in Hc.
  apply in_flat_map in Hc as [m [_ Hc]].
  assert (Hcur : cur = "INR").
  { unfold amount_patterns in Hp. destruct Hp as [Hp|[Hp|[]]];
      now injection Hp. }
  subst cur. eapply amount_candidate_shape; eauto.
Qed.

(** ** Offense keywords, again *)

Lemma identify_in_iff (text category : string) :
  In category (identify_offense_keywords text)
  <-> exists keywords keyword,
        In (category, keywords) offense_keywords /\ In keyword keywords
        /\ str_contains keyword (lower text) = true.
Proof.
  unfold identify_offense_keywords, identified_offenses.
  rewrite nodup_In. cbv zeta. rewrite identified_fold.
  split; [intros [[]|H]; exact H|auto].
Qed.

Lemma lower_app (a b : string) : lower (a ++ b) = lower a ++ lower b.
Proof. induction a; simpl; congruence. Qed.

Lemma starts_with_app (k a b : string) :
  starts_with k a = true -> starts_with k (a ++ b) = true.
Proof.
  revert a. induction k as [|c k IH]; intros a H; [reflexivity|].
  destruct a as [|c' a]; [discriminate H|].
  simpl in *. apply andb_true_iff in H as [Hc Hk]. rewrite Hc.
  cbn [andb]. auto.
Qed.

Lemma str_contains_app_l (k a b : string) :
  str_contains k a = true -> str_contains k (a ++ b) = true.
Proof.
  induction a as [|c a IH]; intros H.
  - simpl in H. rewrite orb_false_r in H.
    destruct k; [|discriminate H]. now destruct b.
  - cbn [str_contains] in H. apply orb_true_iff in H as [H|H].
    + apply str_contains_prefix. now apply (starts_with_app k (String c a) b).
    + cbn [append str_contains]. rewrite (IH H). apply orb_true_r.
Qed.

Lemma str_contains_app_r (k a b : string) :
  str_contains k b = true -> str_contains k (a ++ b) = true.
Proof.
  intros H. induction a as [|c a IH]; [exact H|].
  cbn [append str_contains]. rewrite IH. apply orb_true_r.
Qed.

(** X22: text added before or after never takes a category away: what
    [identify_offense_keywords] finds in a text it finds in every text
    that contains it. *)
Theorem identify_offense_keywords_monotone (before text after category : string) :
  In category (identify_offense_keywords text) ->
  In category (identify_offense_keywords (before ++ text ++ after)).
Proof.
  rewrite !identify_in_iff. intros [kws [kw [Hin [Hk Hc]]]].
  exists kws, kw. repeat split; auto.
  rewrite !lower_app. apply str_contains_app_r. now apply str_contains_app_l.
Qed.

Lemma identify_offense_keywords_monotone_witness :
  In "theft" (identify_offense_keywords ("Sir, " ++ "my bag was stolen" ++ ".")).
Proof.
  apply (identify_offense_keywords_monotone "Sir, " "my bag was stolen" ".").
  vm_compute. tauto.
Defined.

Lemma lower_char_twice (c : ascii) : lower_char (lower_char c) = lower_char c.
Proof.
  unfold lower_char. destruct (is_upper c) eqn:E; [|now rewrite E].
  unfold is_upper in *. apply andb_true_iff in E as [H1 H2].
  apply Nat.leb_le in H1, H2.
  rewrite nat_ascii_embedding by lia.
  replace ((65 <=? nat_of_ascii c + 32)%nat
           && (nat_of_ascii c + 32 <=? 90)%nat) with false; [reflexivity|].
  symmetry. apply andb_false_iff. right. apply Nat.leb_gt. lia.
Qed.

Lemma lower_twice (s : string) : lower (lower s) = lower s.
Proof.
  induction s as [|c s IH]; simpl; [reflexivity|].
  now rewrite lower_char_twice, IH.
Qed.

(** X23: the result of [identify_offense_keywords] has no duplicates, holds
    only categories of the table, and does not depend on the case of the
    letters of the text. *)
Theorem identify_offense_keywords_result (text : string) :
  NoDup (identify_offense_keywords text)
  /\ incl (identify_offense_keywords text) (map fst offense_keywords)
  /\ identify_offense_keywords (lower text) = identify_offense_keywords text.
Proof.
  split; [apply NoDup_nodup|]. split.
  - intros category H. apply identify_in_iff in H as [kws [kw [Hin _]]].
    apply (in_map fst) in Hin. exact Hin.
  - unfold identify_offense_keywords, identified_offenses. cbv zeta.
    now rewrite lower_twice.
Qed.

(** ** The answer of the model before [json.loads] *)

Lemma split_by_aux_nonempty (sep : string) (s : string) :
  forall skip, split_by_aux sep skip s <> [].
Proof.
  induction s as [|c s IH]; intros skip; [discriminate|].
  cbn [split_by_aux]. destruct skip; [|apply IH].
  destruct (starts_with sep (String c s)); [discriminate|].
  destruct (split_by_aux sep 0 s); discriminate.
Qed.

Lemma split_by_fence (t : string) :
  split_by fence (fence ++ t) = EmptyString :: split_by fence t.
Proof. reflexivity. Qed.

Lemma split_by_segment (seg rest : string) :
  no_backtick seg = true ->
  split_by fence (seg ++ fence ++ rest) = seg :: split_by fence rest.
Proof.
  unfold no_backtick. induction seg as [|c seg IH]; intros H.
  - apply split_by_fence.
  - cbn [all_chars] in H. apply andb_true_iff in H as [Hc Hs].
    apply negb_true_iff in Hc. unfold split_by in *.
    cbn [append split_by_aux].
    replace (starts_with fence (String c (seg ++ fence ++ rest))) with false.
    + now rewrite (IH Hs).
    + unfold fence. cbn [starts_with]. rewrite Ascii.eqb_sym, Hc. reflexivity.
Qed.

Lemma split_by_last_segment (seg : string) :
  no_backtick seg = true -> split_by fence seg = [seg].
Proof.
  unfold no_backtick. induction seg as [|c seg IH]; intros H; [reflexivity|].
  cbn [all_chars] in H. apply andb_true_iff in H as [Hc Hs].
  apply negb_true_iff in Hc. unfold split_by in *. cbn [split_by_aux].
  replace (starts_with fence (String c seg)) with false.
  - now rewrite (IH Hs).
  - unfold fence. cbn [starts_with]. rewrite Ascii.eqb_sym, Hc. reflexivity.
Qed.

(** X24: from an answer wrapped in a code fence, [unfence] returns what
    stands between the opening fence and the next one (or the end of the
    answer when the fence is not closed), without a leading "json" tag;
    here for a wrapped text without backticks. *)
Theorem unfence_fenced (seg rest : string) :
  no_backtick seg = true ->
  unfence (fence ++ seg ++ fence ++ rest)
  = Some (if starts_with "json" seg then drop 4 seg else seg)
  /\ unfence (fence ++ seg)
     = Some (if starts_with "json" seg then drop 4 seg else seg).
Proof.
  intros H. unfold unfence.
  change (starts_with fence (fence ++ seg ++ fence ++ rest)) with true.
  change (starts_with fence (fence ++ seg)) with true. cbv iota.
  rewrite !split_by_fence.
  rewrite (split_by_segment seg rest H), (split_by_last_segment seg H).
  split; reflexivity.
Qed.

Lemma unfence_fenced_witness :
  unfence (fence ++ "json{}" ++ fence ++ " done") = Some "{}".
Proof.
  apply (proj1 (unfence_fenced "json{}" " done" eq_refl)).
Defined.

Lemma starts_with_split (p s : string) :
  starts_with p s = true -> s = p ++ drop (String.length p) s.
Proof.
  revert s. induction p as [|c p IH]; intros s H; [reflexivity|].
  destruct s as [|c' s]; [discriminate H|].
  simpl in H. apply andb_true_iff in H as [Hc Hp].
  apply Ascii.eqb_eq in Hc. subst c'. simpl. f_equal. auto.
Qed.

(** X25: the index [[1]] after the split on the fence is always in range:
    the clean-up of the answer never fails, whatever the answer is. *)
Theorem response_json_text_total (content : string) :
  exists json_str, response_json_text content = Some json_str.
Proof.
  unfold response_json_text, unfence.
  destruct (starts_with fence (strip content)) eqn:E; [|eauto].
  rewrite (starts_with_split _ _ E), split_by_fence. cbn [nth_error].
  pose proof (split_by_aux_nonempty fence
                (drop (String.length fence) (strip content)) 0) as Hne.
  unfold split_by.
  destruct (split_by_aux fence 0 _); [congruence|eauto].
Qed.

(** ** The fallback record *)

Lemma fallback_as_sets (schema r : value) (complaint_text now : string) :
  fallback_record schema complaint_text now = Ok r ->
  exists schema1,
    set_nested_value schema "original_text" (VStr complaint_text) = Ok schema1
    /\ set_nested_value schema1 "complaint_metadata.submission_datetime"
         (VStr now) = Ok r.
Proof.
  unfold fallback_record. intros H.
  destruct schema as [| | | | | |d]; try discriminate H.
  cbn [py_setitem bind] in H.
  exists (VDict (dict_set "original_text" (VStr complaint_text) d)).
  split; [reflexivity|].
  set (d1 := dict_set "original_text" (VStr complaint_text) d) in *.
  unfold set_nested_value.
  change (split_on dot "complaint_metadata.submission_datetime")
    with ["complaint_metadata"; "submission_datetime"].
  rewrite set_keys_step. unfold py_getitem in *.
  destruct (dict_get "complaint_metadata" d1) as [meta|] eqn:Hm;
    [|discriminate H].
  unfold ensure_key, dict_mem. rewrite Hm, Hm. cbn [bind] in *.
  destruct meta as [| | | | | |dm]; try discriminate H.
  exact H.
Qed.

Lemma fallback_paths_apart :
  forallb (fun f => apart ["original_text"] (keys_of f)
                    && apart ["complaint_metadata"; "submission_datetime"]
                             (keys_of f))
          MANDATORY_FIELDS = true.
Proof. reflexivity. Qed.

(** X26: when the fallback after a failed extraction returns, the record
    holds the complaint text and the time stamp at their paths, and
    reports exactly the mandatory fields the schema itself reports. *)
Theorem fallback_record_spec (schema r : value) (complaint_text now : string) :
  fallback_record schema complaint_text now = Ok r ->
  get_nested_value r "original_text" = VStr complaint_text
  /\ get_nested_value r "complaint_metadata.submission_datetime" = VStr now
  /\ validate_mandatory_fields r = validate_mandatory_fields schema.
Proof.
  intros H. destruct (fallback_as_sets _ _ _ _ H) as [s1 [H1 H2]].
  unfold set_nested_value, get_nested_value in *.
  pose proof (fun p => split_on_nonempty dot p) as Hne.
  split; [|split].
  - rewrite (set_keys_frame _ (Hne _) _ _ _ _ H2) by reflexivity.
    eapply set_keys_get_keys; eauto.
  - eapply set_keys_get_keys; eauto.
  - rewrite !validate_is_filter. apply filter_ext_in. intros f Hf.
    unfold missing_entry, get_nested_value. f_equal.
    pose proof fallback_paths_apart as Ha. rewrite forallb_forall in Ha.
    specialize (Ha f Hf). apply andb_true_iff in Ha as [Ha1 Ha2].
    rewrite (set_keys_frame _ (Hne _) _ _ _ _ H2) by exact Ha2.
    apply (set_keys_frame _ (Hne _) _ _ _ _ H1). exact Ha1.
Qed.

Lemma fallback_record_spec_witness :
  get_nested_value
    (VDict [("complaint_metadata", VDict [("submission_datetime", VStr "t")]);
            ("original_text", VStr "c")]) "original_text" = VStr "c".
Proof.
  apply (fallback_record_spec
           (VDict [("complaint_metadata", VDict [])]) _ "c" "t").
  reflexivity.
Defined.

(** ** Identifiers *)

Lemma upper_char_not_lower (c : ascii) : is_lower (upper_char c) = false.
Proof.
  unfold upper_char. destruct (is_lower c) eqn:E; [|exact E].
  unfold is_lower in *. apply andb_true_iff in E as [H1 H2].
  apply Nat.leb_le in H1, H2.
  rewrite nat_ascii_embedding by lia.
  apply andb_false_iff. left. apply Nat.leb_gt. lia.
Qed.

Lemma upper_no_lower (s : string) :
  all_chars (fun c => negb (is_lower c)) (upper s) = true.
Proof.
  induction s as [|c s IH]; simpl; [reflexivity|].
  now rewrite upper_char_not_lower, IH.
Qed.

Lemma upper_length (s : string) : String.length (upper s) = String.length s.
Proof. induction s; simpl; congruence. Qed.

Lemma take_length_le (n : nat) (s : string) : String.length (take n s) <= n.
Proof.
  revert s. induction n as [|n IH]; intros s; simpl; [lia|].
  destruct s; simpl; [lia|]. specialize (IH s). lia.
Qed.

(** X27: for a district written in ASCII (or none), the FIR number is a
    district code, the year and the sequence number joined by hyphens; the
    code is never empty, has at most three characters and no lower-case
    letter, and is "UNK" without a district. *)
Theorem district_code_spec (district : option string) (year sequential : nat) :
  (forall d, district = Some d -> ascii_text d = true) ->
  exists code,
    generate_fir_number district year sequential
    = code ++ "-" ++ str_of_nat year ++ "-" ++ str_of_nat sequential
    /\ 1 <= String.length code <= 3
    /\ all_chars (fun c => negb (is_lower c)) code = true
    /\ (district = None \/ district = Some "" -> code = "UNK").
Proof.
  intros _. exists (district_code district).
  split; [reflexivity|]. split; [|split].
  - destruct district as [d|]; [|simpl; lia]. unfold district_code.
    destruct d as [|c d]; [simpl; lia|]. cbn [String.eqb negb].
    rewrite upper_length. pose proof (take_length_le 3 (String c d)) as H.
    cbn [take String.length] in *. lia.
  - destruct district as [d|]; [|reflexivity]. unfold district_code.
    destruct (negb (String.eqb d "")); [apply upper_no_lower|reflexivity].
  - intros [->| ->]; reflexivity.
Qed.

Lemma district_code_spec_witness :
  exists code,
    generate_fir_number (Some "Bengaluru") 2025 4321
    = code ++ "-" ++ str_of_nat 2025 ++ "-" ++ str_of_nat 4321
    /\ 1 <= String.length code <= 3
    /\ all_chars (fun c => negb (is_lower c)) code = true
    /\ (Some "Bengaluru" = None \/ Some "Bengaluru" = Some "" ->
        code = "UNK").
Proof.
  apply (district_code_spec (Some "Bengaluru") 2025 4321).
  intros d H. injection H as <-. reflexivity.
Defined.

(** ** Dates accepted by validate_date *)

Lemma make_date_valid (y m d : nat) (dt : date) :
  make_date y m d = Ok dt -> valid_date dt.
Proof.
  unfold make_date.
  destruct ((1 <=? y)%nat && (Z.of_nat y <=? 9999)%Z && (1 <=? m)%nat
            && (m <=? 12)%nat && (1 <=? d)%nat
            && (d <=? days_in_month y m)%nat) eqn:E; [|discriminate].
  intros H. injection H as <-.
  repeat (apply andb_true_iff in E as [E ?]).
  unfold valid_date. cbn [year month day].
  repeat match goal with
         | H : (_ <=? _)%nat = true |- _ => apply Nat.leb_le in H
         | H : (_ <=? _)%Z = true |- _ => apply Z.leb_le in H
         end.
  repeat split; assumption.
Qed.

(** X28: [validate_date] never raises, and answers true only for a text
    that [strptime] reads as a date of the calendar: year from 1 to 9999,
    month from 1 to 12, day within the month, leap years counted. *)
Theorem validate_date_spec (date_str : string) :
  (exists b, validate_date date_str = Ok b)
  /\ (validate_date date_str = Ok true ->
      exists d, strptime_ymd date_str = Ok d /\ valid_date d).
Proof.
  unfold validate_date.
  destruct (strptime_ymd date_str) as [d|e] eqn:E.
  - split; [eauto|]. intros _. exists d. split; [reflexivity|].
    unfold strptime_ymd in E.
    destruct (match_prefix true strptime_regex date_str) as [[rest cs]|];
      [|discriminate E].
    destruct (negb (String.eqb rest "")); [discriminate E|].
    destruct (group 1 cs); [|discriminate E].
    destruct (group 2 cs); [|discriminate E].
    destruct (group 3 cs); [|discriminate E].
    eapply make_date_valid; eauto.
  - apply strptime_ymd_raises in E. subst e. split; [eauto|discriminate].
Qed.

Lemma validate_date_spec_witness :
  exists d, strptime_ymd "2024-02-29" = Ok d /\ valid_date d.
Proof.
  apply (proj2 (validate_date_spec "2024-02-29")). reflexivity.
Defined.
